(** * Banknote serial-number verification backend

    A shallow embedding of the Express/Drizzle backend:
    - [shared/schema.ts]: the three tables and [verifyBanknoteSchema];
    - [server/storage.ts]: [DatabaseStorage] ([getCountryByCode],
      [getDenomination], [createVerificationLog], [getVerificationStats],
      [seedInitialData], ...);
    - [server/routes.ts]: the [POST /api/verify] handler.

    JavaScript strings are sequences of UTF-16 code units, JavaScript numbers
    are IEEE 754 binary64 values, the relational store is a record of row
    lists with one id sequence per table, and [async] code is sequential
    state passing with exceptions. *)

From Stdlib Require Import List ZArith NArith Bool Ascii String Lia.
From Stdlib Require Import SpecFloat.
Import ListNotations.

Local Open Scope Z_scope.

(** ** JavaScript strings *)

(** A string value is a finite sequence of 16-bit code units; the length of
    the list is what JavaScript's [.length] returns. *)
Definition codeunit : Type := N.
Definition jsstring : Type := list codeunit.

Definition jsstring_eqb (a b : jsstring) : bool :=
  if list_eq_dec N.eq_dec a b then true else false.

(** Literals whose characters are all ASCII: one code unit per character. *)
Definition js (s : string) : jsstring :=
  map N_of_ascii (list_ascii_of_string s).

(** [s.length], a non-negative integer. *)
Definition jslength (s : jsstring) : Z := Z.of_nat (List.length s).

(** ** The regular-expression engine: [new RegExp(source)] and [.test]

    The engine is the JavaScript built-in.  The model covers the fragment of
    the pattern syntax that the rule table uses, and a little more: the
    assertions [^] and [$], literal characters, [.], the class escapes
    [\d \D \s \S \w \W], escaped syntax characters, bracket classes with
    ranges and negation, and the exact-count quantifier [{n}].  No flags are
    ever passed, so matching is case sensitive, works on code units, and
    [^] / [$] only hold at the two ends of the input. *)

Module RegExp.

Inductive ClassItem :=
| CRange (lo hi : N)
| CDigit (positive : bool)
| CSpace (positive : bool)
| CWord (positive : bool).

Inductive Atom :=
| ALit (c : N)
| ADot
| AClass (negated : bool) (items : list ClassItem).

Inductive Term :=
| TStart
| TEnd
| TRep (a : Atom) (n : nat).

Definition Pattern := list Term.

(** *** Character predicates *)

Definition inRange (lo hi c : N) : bool := (lo <=? c)%N && (c <=? hi)%N.

Definition isDigit (c : N) : bool := inRange 48 57 c.

Definition isWord (c : N) : bool :=
  inRange 65 90 c || inRange 97 122 c || isDigit c || (c =? 95)%N.

Definition isLineTerminator (c : N) : bool :=
  (c =? 10)%N || (c =? 13)%N || (c =? 8232)%N || (c =? 8233)%N.

(** [\s]: WhiteSpace and LineTerminator of the language specification. *)
Definition isSpace (c : N) : bool :=
  inRange 9 13 c || (c =? 32)%N || (c =? 160)%N || (c =? 5760)%N
  || inRange 8192 8202 c || (c =? 8232)%N || (c =? 8233)%N
  || (c =? 8239)%N || (c =? 8287)%N || (c =? 12288)%N || (c =? 65279)%N.

Definition itemMatches (c : N) (i : ClassItem) : bool :=
  match i with
  | CRange lo hi => inRange lo hi c
  | CDigit pos => Bool.eqb pos (isDigit c)
  | CSpace pos => Bool.eqb pos (isSpace c)
  | CWord pos => Bool.eqb pos (isWord c)
  end.

Definition atomMatches (a : Atom) (c : N) : bool :=
  match a with
  | ALit x => (c =? x)%N
  | ADot => negb (isLineTerminator c)
  | AClass neg items => xorb neg (existsb (itemMatches c) items)
  end.

(** *** Parsing a pattern source *)

(** The syntax characters [^ $ \ . * + ? ( ) [ ] { } |] and [/]. *)
Definition isSyntaxChar (c : N) : bool :=
  existsb (N.eqb c) [94; 36; 92; 46; 42; 43; 63; 40; 41; 91; 93; 123; 125; 124; 47]%N.

Definition classEscape (c : N) : option ClassItem :=
  if (c =? 100)%N then Some (CDigit true)
  else if (c =? 68)%N then Some (CDigit false)
  else if (c =? 115)%N then Some (CSpace true)
  else if (c =? 83)%N then Some (CSpace false)
  else if (c =? 119)%N then Some (CWord true)
  else if (c =? 87)%N then Some (CWord false)
  else None.

(** One member of a bracket class: a class escape, or a literal
    (possibly escaped) code unit. *)
Definition parseClassAtom (s : jsstring) : option ((ClassItem + N) * jsstring) :=
  match s with
  | 92%N :: e :: r =>
      match classEscape e with
      | Some i => Some (inl i, r)
      | None =>
          if isSyntaxChar e || (e =? 45)%N then Some (inr e, r) else None
      end
  | c :: r =>
      if (c =? 92)%N || (c =? 93)%N || (c =? 45)%N then None
      else Some (inr c, r)
  | [] => None
  end.

(** The members of a class up to and including the closing bracket. *)
Fixpoint parseClassItems (fuel : nat) (s : jsstring)
  : option (list ClassItem * jsstring) :=
  match fuel with
  | O => None
  | S fuel' =>
      match s with
      | [] => None
      | 93%N :: r => Some ([], r)
      | _ =>
          match parseClassAtom s with
          | None => None
          | Some (inl i, r) =>
              match r with
              | 45%N :: _ => None
              | _ =>
                  match parseClassItems fuel' r with
                  | Some (is', r') => Some (i :: is', r')
                  | None => None
                  end
              end
          | Some (inr lo, 45%N :: r) =>
              match parseClassAtom r with
              | Some (inr hi, r') =>
                  if (lo <=? hi)%N then
                    match parseClassItems fuel' r' with
                    | Some (is', r'') => Some (CRange lo hi :: is', r'')
                    | None => None
                    end
                  else None
              | _ => None
              end
          | Some (inr c, r) =>
              match parseClassItems fuel' r with
              | Some (is', r') => Some (CRange c c :: is', r')
              | None => None
              end
          end
      end
  end.

Definition parseClass (s : jsstring) : option (Atom * jsstring) :=
  match s with
  | 94%N :: r =>
      match parseClassItems (S (List.length r)) r with
      | Some (items, r') => Some (AClass true items, r')
      | None => None
      end
  | _ =>
      match parseClassItems (S (List.length s)) s with
      | Some (items, r') => Some (AClass false items, r')
      | None => None
      end
  end.

(** The decimal digits of [{n}], up to and including the closing brace. *)
Fixpoint parseCount (acc : nat) (seen : bool) (s : jsstring)
  : option (nat * jsstring) :=
  match s with
  | [] => None
  | c :: r =>
      if isDigit c then parseCount (10 * acc + N.to_nat (c - 48)) true r
      else if (c =? 125)%N && seen then Some (acc, r)
      else None
  end.

Definition parseAtom (s : jsstring) : option (Atom * jsstring) :=
  match s with
  | [] => None
  | 92%N :: e :: r =>
      match classEscape e with
      | Some i => Some (AClass false [i], r)
      | None => if isSyntaxChar e then Some (ALit e, r) else None
      end
  | 46%N :: r => Some (ADot, r)
  | 91%N :: r => parseClass r
  | c :: r => if isSyntaxChar c then None else Some (ALit c, r)
  end.

Definition parseQuantifier (s : jsstring) : option (nat * jsstring) :=
  match s with
  | 123%N :: r => parseCount 0 false r
  | c :: _ =>
      if (c =? 42)%N || (c =? 43)%N || (c =? 63)%N then None else Some (1%nat, s)
  | [] => Some (1%nat, s)
  end.

Fixpoint parseTerms (fuel : nat) (s : jsstring) : option Pattern :=
  match fuel with
  | O => None
  | S fuel' =>
      match s with
      | [] => Some []
      | 94%N :: r => option_map (cons TStart) (parseTerms fuel' r)
      | 36%N :: r => option_map (cons TEnd) (parseTerms fuel' r)
      | _ =>
          match parseAtom s with
          | None => None
          | Some (a, r) =>
              match parseQuantifier r with
              | None => None
              | Some (n, r') => option_map (cons (TRep a n)) (parseTerms fuel' r')
              end
          end
      end
  end.

(** [compile src] is the pattern of [new RegExp(src)]; [None] stands for a
    source that the constructor rejects with a [SyntaxError] or that lies
    outside the fragment above.  Every pattern of the seed lies inside it,
    and what is proved with this engine is proved of those patterns. *)
Definition compile (src : jsstring) : option Pattern :=
  parseTerms (S (List.length src)) src.

(** *** Matching *)

(** [n] repetitions of [a] at the head of the input; the rest is returned. *)
Fixpoint matchRep (a : Atom) (n : nat) (s : jsstring) : option jsstring :=
  match n with
  | O => Some s
  | S n' =>
      match s with
      | c :: r => if atomMatches a c then matchRep a n' r else None
      | [] => None
      end
  end.

(** [matchAt p i s]: the pattern matches at index [i] of the input, where
    [s] is the input from index [i] on; the unmatched rest is returned. *)
Fixpoint matchAt (p : Pattern) (i : nat) (s : jsstring) : option jsstring :=
  match p with
  | [] => Some s
  | TStart :: p' => if Nat.eqb i 0 then matchAt p' i s else None
  | TEnd :: p' => match s with [] => matchAt p' i s | _ => None end
  | TRep a n :: p' =>
      match matchRep a n s with
      | Some r => matchAt p' (i + n) r
      | None => None
      end
  end.

(** The search loop of [RegExp.prototype.exec] without the global or sticky
    flag: try every start index from [i] up to the end of the input. *)
Fixpoint search (p : Pattern) (i : nat) (s : jsstring) : bool :=
  match matchAt p i s with
  | Some _ => true
  | None =>
      match s with
      | [] => false
      | _ :: r => search p (S i) r
      end
  end.

(** [regex.test(s)] *)
Definition test (p : Pattern) (s : jsstring) : bool := search p 0 s.

(** [new RegExp(src)], as the [test] method of the object it returns. *)
Definition new (src : jsstring) : option (jsstring -> bool) :=
  option_map test (compile src).

(** A whole-string match: the match starts at index 0 and leaves nothing
    of the input unmatched. *)
Definition fullMatch (p : Pattern) (s : jsstring) : bool :=
  match matchAt p 0 s with
  | Some [] => true
  | _ => false
  end.

(** A pattern that opens with [^] and closes with [$]. *)
Definition anchored (p : Pattern) : Prop :=
  exists q, p = TStart :: q ++ [TEnd].

Definition anchoredb (p : Pattern) : bool :=
  match p with
  | TStart :: q =>
      match rev q with
      | TEnd :: _ => true
      | _ => false
      end
  | _ => false
  end.

End RegExp.

(** ** JavaScript numbers

    Every number is an IEEE 754 binary64 value; the arithmetic operators
    round to nearest, ties to even. *)

Module JsNumber.

Definition t := spec_float.

Definition prec : Z := 53.
Definition emax : Z := 1024.

(** The number denoted by an integer literal or an integer-valued
    expression such as [logs.length]. *)
Definition ofZ (z : Z) : t := binary_normalize prec emax z 0 false.

Definition mul : t -> t -> t := SFmul prec emax.
Definition div : t -> t -> t := SFdiv prec emax.

(** [Math.round]: the integer closest to [x], ties towards +infinity;
    a result of zero keeps the sign of [x]. *)
Definition round (x : t) : t :=
  match x with
  | S754_finite s m e =>
      if 0 <=? e then x
      else
        let d := 2 ^ (- e) in
        let k := (2 * cond_Zopp s (Zpos m) + d) / (2 * d) in
        match k with
        | Z0 => S754_zero s
        | _ => ofZ k
        end
  | _ => x
  end.

Definition isNaN (x : t) : bool :=
  match x with S754_nan => true | _ => false end.

End JsNumber.

(** ** [shared/schema.ts]: rows of the three tables *)

Module Country.
Record t := mk
  { id : Z; code : jsstring; name : jsstring;
    currency : jsstring; currencySymbol : jsstring }.
End Country.

Module InsertCountry.
Record t := mk
  { code : jsstring; name : jsstring;
    currency : jsstring; currencySymbol : jsstring }.
End InsertCountry.

Module Denomination.
Record t := mk
  { id : Z; countryId : Z; value : jsstring; displayName : jsstring;
    serialFormat : jsstring; serialLength : Z;
    patternDescription : jsstring; isActive : bool }.
End Denomination.

Module InsertDenomination.
Record t := mk
  { countryId : Z; value : jsstring; displayName : jsstring;
    serialFormat : jsstring; serialLength : Z;
    patternDescription : jsstring; isActive : option bool }.
End InsertDenomination.

Module VerificationLog.
Record t := mk
  { id : Z; countryId : Z; denominationId : Z; serialNumber : jsstring;
    isAuthentic : bool; formatValid : bool; lengthValid : bool;
    timestamp : Z }.
End VerificationLog.

Module InsertVerificationLog.
Record t := mk
  { countryId : Z; denominationId : Z; serialNumber : jsstring;
    isAuthentic : bool; formatValid : bool; lengthValid : bool }.
End InsertVerificationLog.

(** ** Request bodies and [verifyBanknoteSchema] *)

(** A request body after JSON decoding. *)
#[local] Unset Elimination Schemes.
Inductive JsValue :=
| JsUndefined
| JsNull
| JsBoolean (b : bool)
| JsNumberV (x : JsNumber.t)
| JsStringV (s : jsstring)
| JsArray (items : list JsValue)
| JsObject (fields : list (jsstring * JsValue)).
#[local] Set Elimination Schemes.

(** Property read [o.key]; a missing property reads as [undefined]. *)
Fixpoint getField (fields : list (jsstring * JsValue)) (key : jsstring) : JsValue :=
  match fields with
  | [] => JsUndefined
  | (k, v) :: rest => if jsstring_eqb k key then v else getField rest key
  end.

Inductive ZodIssueCode := invalid_type | too_small | too_big.

Record ZodIssue := mkIssue { issueCode : ZodIssueCode; issuePath : list jsstring }.

(** [z.string().min(lo)] with an optional [.max(hi)], applied to the value
    found at [key]: the list of issues it raises (empty when it passes). *)
Definition zString (lo : Z) (hi : option Z) (key : jsstring) (v : JsValue)
  : list ZodIssue :=
  match v with
  | JsStringV s =>
      (if jslength s <? lo then [mkIssue too_small [key]] else [])
      ++ match hi with
         | Some h => if h <? jslength s then [mkIssue too_big [key]] else []
         | None => []
         end
  | _ => [mkIssue invalid_type [key]]
  end.

Definition stringOf (v : JsValue) : jsstring :=
  match v with JsStringV s => s | _ => [] end.

Record VerifyBanknoteRequest := mkRequest
  { countryCode : jsstring; denomination : jsstring; serialNumber : jsstring }.

(** [verifyBanknoteSchema.parse(body)]: the parsed request, or the issues of
    the [ZodError] it throws. *)
Definition verifyBanknoteSchema_parse (body : JsValue)
  : list ZodIssue + VerifyBanknoteRequest :=
  match body with
  | JsObject fields =>
      let cc := getField fields (js "countryCode") in
      let dn := getField fields (js "denomination") in
      let sn := getField fields (js "serialNumber") in
      match zString 2 (Some 3) (js "countryCode") cc
            ++ zString 1 None (js "denomination") dn
            ++ zString 1 (Some 20) (js "serialNumber") sn with
      | [] => inr (mkRequest (stringOf cc) (stringOf dn) (stringOf sn))
      | issues => inl issues
      end
  | _ => inl [mkIssue invalid_type []]
  end.

(** ** The data store and the effects of [async] code *)

Record Store := mkStore
  { countries : list Country.t;
    denominations : list Denomination.t;
    verificationLogs : list VerificationLog.t;
    countries_id_seq : Z;
    denominations_id_seq : Z;
    verification_logs_id_seq : Z }.

(** The statements that [DatabaseStorage] sends to the store. *)
Inductive Query :=
| SelectCountries
| SelectCountryByCode (code : jsstring)
| InsertIntoCountries (row : InsertCountry.t)
| SelectDenominationsByCountry (countryId : Z)
| SelectDenomination (countryId : Z) (value : jsstring)
| InsertIntoDenominations (row : InsertDenomination.t)
| InsertIntoVerificationLogs (row : InsertVerificationLog.t)
| SelectVerificationLogs.

(** What a computation can observe and change: the store, the statements
    sent to it so far (oldest first), and the wall clock in milliseconds. *)
Record World := mkWorld { db : Store; queries : list Query; clock : Z }.

Inductive Exn :=
| ZodError (issues : list ZodIssue)
| SyntaxError
| TypeError
| DbError.

Inductive Outcome (A : Type) :=
| Return (a : A)
| Throw (e : Exn).
Arguments Return {A} a.
Arguments Throw {A} e.

(** An [async] function: it runs from a world, ends by returning or
    throwing, and leaves a world behind either way. *)
Definition Async (A : Type) : Type := World -> Outcome A * World.

Definition ret {A} (a : A) : Async A := fun w => (Return a, w).
Definition throw {A} (e : Exn) : Async A := fun w => (Throw e, w).

Definition bind {A B} (m : Async A) (k : A -> Async B) : Async B :=
  fun w =>
    match m w with
    | (Return a, w') => k a w'
    | (Throw e, w') => (Throw e, w')
    end.

Notation "x <- m ;; k" := (bind m (fun x => k))
  (at level 61, m at next level, right associativity).

(** [Promise.all(actions)]: every action is started and runs to its end, in
    list order; the result is the list of their values, or the first
    exception. *)
Fixpoint Promise_all {A} (actions : list (Async A)) : Async (list A) :=
  fun w =>
    match actions with
    | [] => (Return [], w)
    | m :: rest =>
        match m w with
        | (Return a, w1) =>
            match Promise_all rest w1 with
            | (Return l, w2) => (Return (a :: l), w2)
            | (Throw e, w2) => (Throw e, w2)
            end
        | (Throw e, w1) => (Throw e, snd (Promise_all rest w1))
        end
    end.

Definition send (q : Query) (w : World) : World :=
  mkWorld (db w) (queries w ++ [q]) (clock w).

Definition setDb (s : Store) (w : World) : World :=
  mkWorld s (queries w) (clock w).

(** ** [server/storage.ts]: [DatabaseStorage]

    A select returns the matching rows in insertion order.  An insert takes
    the next value of the table's id sequence; a row that the table refuses
    leaves the tables as they were.

    The model holds a text as the program sends it and an integer as a [Z].
    It leaves out what the store's encoding and column types refuse or
    rewrite (a text with a NUL character or an unpaired surrogate, an
    integer beyond 32 bits): an insert into [denominations] or
    [verification_logs] is always accepted and stores its values unchanged. *)

Definition getCountries : Async (list Country.t) :=
  fun w => (Return (countries (db w)), send SelectCountries w).

Definition getCountryByCode (code : jsstring) : Async (option Country.t) :=
  fun w =>
    (Return (find (fun c => jsstring_eqb (Country.code c) code) (countries (db w))),
     send (SelectCountryByCode code) w).

(** The [varchar] columns of [countries] hold at most 3, 3 and 5
    characters.  The model counts code units and refuses every longer
    value; the store counts characters and cuts excess trailing spaces
    instead of refusing them.  The two agree on the rows of the seed, which
    all fit. *)
Definition countryFits (r : InsertCountry.t) : bool :=
  (jslength (InsertCountry.code r) <=? 3)
  && (jslength (InsertCountry.currency r) <=? 3)
  && (jslength (InsertCountry.currencySymbol r) <=? 5).

(** A row that [countries] accepts: its [code] is not stored yet (the
    column is unique) and its values fit. *)
Definition countryRowOk (s : Store) (r : InsertCountry.t) : bool :=
  negb (existsb (fun c => jsstring_eqb (Country.code c) (InsertCountry.code r)) (countries s))
  && (jslength (InsertCountry.code r) <=? 3)
  && (jslength (InsertCountry.currency r) <=? 3)
  && (jslength (InsertCountry.currencySymbol r) <=? 5).

(** A value too long for its column is refused before an id is drawn; a
    code that is already stored is refused after, and the id is lost. *)
Definition createCountry (insertCountry : InsertCountry.t) : Async Country.t :=
  fun w =>
    let s := db w in
    let w' := send (InsertIntoCountries insertCountry) w in
    if countryRowOk s insertCountry then
      let country :=
        Country.mk (countries_id_seq s)
          (InsertCountry.code insertCountry) (InsertCountry.name insertCountry)
          (InsertCountry.currency insertCountry)
          (InsertCountry.currencySymbol insertCountry) in
      (Return country,
       setDb (mkStore (countries s ++ [country]) (denominations s)
                (verificationLogs s) (countries_id_seq s + 1)
                (denominations_id_seq s) (verification_logs_id_seq s)) w')
    else
      (Throw DbError,
       setDb (mkStore (countries s) (denominations s) (verificationLogs s)
                (if countryFits insertCountry
                 then countries_id_seq s + 1
                 else countries_id_seq s)
                (denominations_id_seq s) (verification_logs_id_seq s)) w').

Definition getDenominationsByCountry (countryId : Z) : Async (list Denomination.t) :=
  fun w =>
    (Return (filter (fun d => Denomination.countryId d =? countryId)
               (denominations (db w))),
     send (SelectDenominationsByCountry countryId) w).

Definition getDenomination (countryId : Z) (value : jsstring)
  : Async (option Denomination.t) :=
  fun w =>
    (Return (find (fun d => (Denomination.countryId d =? countryId)
                            && jsstring_eqb (Denomination.value d) value)
               (denominations (db w))),
     send (SelectDenomination countryId value) w).

Definition createDenomination (insertDenomination : InsertDenomination.t)
  : Async Denomination.t :=
  fun w =>
    let s := db w in
    let denomination :=
      Denomination.mk (denominations_id_seq s)
        (InsertDenomination.countryId insertDenomination)
        (InsertDenomination.value insertDenomination)
        (InsertDenomination.displayName insertDenomination)
        (InsertDenomination.serialFormat insertDenomination)
        (InsertDenomination.serialLength insertDenomination)
        (InsertDenomination.patternDescription insertDenomination)
        (match InsertDenomination.isActive insertDenomination with
         | Some b => b
         | None => true
         end) in
    (Return denomination,
     setDb (mkStore (countries s) (denominations s ++ [denomination])
              (verificationLogs s) (countries_id_seq s)
              (denominations_id_seq s + 1) (verification_logs_id_seq s))
       (send (InsertIntoDenominations insertDenomination) w)).

Definition createVerificationLog (insertLog : InsertVerificationLog.t)
  : Async VerificationLog.t :=
  fun w =>
    let s := db w in
    let log :=
      VerificationLog.mk (verification_logs_id_seq s)
        (InsertVerificationLog.countryId insertLog)
        (InsertVerificationLog.denominationId insertLog)
        (InsertVerificationLog.serialNumber insertLog)
        (InsertVerificationLog.isAuthentic insertLog)
        (InsertVerificationLog.formatValid insertLog)
        (InsertVerificationLog.lengthValid insertLog)
        (clock w) in
    (Return log,
     setDb (mkStore (countries s) (denominations s)
              (verificationLogs s ++ [log]) (countries_id_seq s)
              (denominations_id_seq s) (verification_logs_id_seq s + 1))
       (send (InsertIntoVerificationLogs insertLog) w)).

Record Stats := mkStats
  { totalVerified : Z; authentic : Z; suspicious : Z;
    successRate : JsNumber.t }.

(** The body of [getVerificationStats] once the rows are fetched.  The three
    counts are array lengths and their difference: integers that a number
    holds exactly. *)
Definition statsOf (logs : list VerificationLog.t) : Stats :=
  let totalVerified := Z.of_nat (List.length logs) in
  let authentic := Z.of_nat (List.length (filter VerificationLog.isAuthentic logs)) in
  let suspicious := totalVerified - authentic in
  let successRate :=
    if 0 <? totalVerified
    then JsNumber.mul (JsNumber.div (JsNumber.ofZ authentic) (JsNumber.ofZ totalVerified))
           (JsNumber.ofZ 100)
    else JsNumber.ofZ 0 in
  mkStats totalVerified authentic suspicious
    (JsNumber.div (JsNumber.round (JsNumber.mul successRate (JsNumber.ofZ 10)))
       (JsNumber.ofZ 10)).

Definition getVerificationStats : Async Stats :=
  fun w => (Return (statsOf (verificationLogs (db w))), send SelectVerificationLogs w).

(** *** [seedInitialData] *)

Definition countryRow (code name currency currencySymbol : jsstring) : InsertCountry.t :=
  InsertCountry.mk code name currency currencySymbol.

(** Currency signs outside ASCII, as their code units. *)
Definition pound : jsstring := [163%N].
Definition euro : jsstring := [8364%N].
Definition yen : jsstring := [165%N].
Definition rupee : jsstring := [8377%N].
Definition won : jsstring := [8361%N].
Definition ruble : jsstring := [8381%N].
Definition baht : jsstring := [3647%N].
Definition peso : jsstring := [8369%N].

Definition countryData : list InsertCountry.t :=
  [ countryRow (js "US") (js "United States") (js "USD") (js "$");
    countryRow (js "UK") (js "United Kingdom") (js "GBP") pound;
    countryRow (js "EU") (js "European Union") (js "EUR") euro;
    countryRow (js "JP") (js "Japan") (js "JPY") yen;
    countryRow (js "CA") (js "Canada") (js "CAD") (js "C$");
    countryRow (js "AU") (js "Australia") (js "AUD") (js "A$");
    countryRow (js "CH") (js "Switzerland") (js "CHF") (js "CHF");
    countryRow (js "CN") (js "China") (js "CNY") yen;
    countryRow (js "IN") (js "India") (js "INR") rupee;
    countryRow (js "KR") (js "South Korea") (js "KRW") won;
    countryRow (js "SG") (js "Singapore") (js "SGD") (js "S$");
    countryRow (js "HK") (js "Hong Kong") (js "HKD") (js "HK$");
    countryRow (js "NO") (js "Norway") (js "NOK") (js "kr");
    countryRow (js "SE") (js "Sweden") (js "SEK") (js "kr");
    countryRow (js "DK") (js "Denmark") (js "DKK") (js "kr");
    countryRow (js "NZ") (js "New Zealand") (js "NZD") (js "NZ$");
    countryRow (js "RU") (js "Russia") (js "RUB") ruble;
    countryRow (js "BR") (js "Brazil") (js "BRL") (js "R$");
    countryRow (js "MX") (js "Mexico") (js "MXN") (js "$");
    countryRow (js "SA") (js "South Africa") (js "ZAR") (js "R");
    countryRow (js "LK") (js "Sri Lanka") (js "LKR") (js "Rs");
    countryRow (js "MY") (js "Malaysia") (js "MYR") (js "RM");
    countryRow (js "TH") (js "Thailand") (js "THB") baht;
    countryRow (js "ID") (js "Indonesia") (js "IDR") (js "Rp");
    countryRow (js "PH") (js "Philippines") (js "PHP") peso ].

(** One entry of the [denominationData] literal; [seedCountry] is the index
    [k] of its [createdCountries[k].id]. *)
Record DenominationSeed := seedRow
  { seedCountry : nat; seedValue : jsstring; seedDisplayName : jsstring;
    seedSerialFormat : jsstring; seedSerialLength : Z;
    seedPatternDescription : jsstring }.

Definition denominationSeeds : list DenominationSeed :=
  [ (* US Dollar *)
    seedRow 0 (js "1") (js "$1") (js "^[A-L]\d{8}[A-Z]$") 10 (js "Letter + 8 digits + Letter");
    seedRow 0 (js "2") (js "$2") (js "^[A-L]\d{8}[A-Z]$") 10 (js "Letter + 8 digits + Letter");
    seedRow 0 (js "5") (js "$5") (js "^[A-L]\d{8}[A-Z]$") 10 (js "Letter + 8 digits + Letter");
    seedRow 0 (js "10") (js "$10") (js "^[A-L]\d{8}[A-Z]$") 10 (js "Letter + 8 digits + Letter");
    seedRow 0 (js "20") (js "$20") (js "^[A-L]\d{8}[A-Z]$") 10 (js "Letter + 8 digits + Letter");
    seedRow 0 (js "50") (js "$50") (js "^[A-L]\d{8}[A-Z]$") 10 (js "Letter + 8 digits + Letter");
    seedRow 0 (js "100") (js "$100") (js "^[A-L]\d{8}[A-Z]$") 10 (js "Letter + 8 digits + Letter");
    (* UK Pound *)
    seedRow 1 (js "5") (pound ++ js "5") (js "^[A-Z]{2}\d{2}\s\d{6}$") 11 (js "2 Letters + 2 digits + space + 6 digits");
    seedRow 1 (js "10") (pound ++ js "10") (js "^[A-Z]{2}\d{2}\s\d{6}$") 11 (js "2 Letters + 2 digits + space + 6 digits");
    seedRow 1 (js "20") (pound ++ js "20") (js "^[A-Z]{2}\d{2}\s\d{6}$") 11 (js "2 Letters + 2 digits + space + 6 digits");
    seedRow 1 (js "50") (pound ++ js "50") (js "^[A-Z]{2}\d{2}\s\d{6}$") 11 (js "2 Letters + 2 digits + space + 6 digits");
    (* Euro *)
    seedRow 2 (js "5") (euro ++ js "5") (js "^[A-Z]\d{11}$") 12 (js "Letter + 11 digits");
    seedRow 2 (js "10") (euro ++ js "10") (js "^[A-Z]\d{11}$") 12 (js "Letter + 11 digits");
    seedRow 2 (js "20") (euro ++ js "20") (js "^[A-Z]\d{11}$") 12 (js "Letter + 11 digits");
    seedRow 2 (js "50") (euro ++ js "50") (js "^[A-Z]\d{11}$") 12 (js "Letter + 11 digits");
    seedRow 2 (js "100") (euro ++ js "100") (js "^[A-Z]\d{11}$") 12 (js "Letter + 11 digits");
    seedRow 2 (js "200") (euro ++ js "200") (js "^[A-Z]\d{11}$") 12 (js "Letter + 11 digits");
    seedRow 2 (js "500") (euro ++ js "500") (js "^[A-Z]\d{11}$") 12 (js "Letter + 11 digits");
    (* Japanese Yen *)
    seedRow 3 (js "1000") (yen ++ js "1000") (js "^[A-Z]\d{6}[A-Z]$") 8 (js "Letter + 6 digits + Letter");
    seedRow 3 (js "2000") (yen ++ js "2000") (js "^[A-Z]\d{6}[A-Z]$") 8 (js "Letter + 6 digits + Letter");
    seedRow 3 (js "5000") (yen ++ js "5000") (js "^[A-Z]\d{6}[A-Z]$") 8 (js "Letter + 6 digits + Letter");
    seedRow 3 (js "10000") (yen ++ js "10000") (js "^[A-Z]\d{6}[A-Z]$") 8 (js "Letter + 6 digits + Letter");
    (* Canadian Dollar *)
    seedRow 4 (js "5") (js "C$5") (js "^[A-Z]{3}\d{7}$") 10 (js "3 Letters + 7 digits");
    seedRow 4 (js "10") (js "C$10") (js "^[A-Z]{3}\d{7}$") 10 (js "3 Letters + 7 digits");
    seedRow 4 (js "20") (js "C$20") (js "^[A-Z]{3}\d{7}$") 10 (js "3 Letters + 7 digits");
    seedRow 4 (js "50") (js "C$50") (js "^[A-Z]{3}\d{7}$") 10 (js "3 Letters + 7 digits");
    seedRow 4 (js "100") (js "C$100") (js "^[A-Z]{3}\d{7}$") 10 (js "3 Letters + 7 digits");
    (* Australian Dollar *)
    seedRow 5 (js "5") (js "A$5") (js "^[A-Z]{2}\d{8}$") 10 (js "2 Letters + 8 digits");
    seedRow 5 (js "10") (js "A$10") (js "^[A-Z]{2}\d{8}$") 10 (js "2 Letters + 8 digits");
    seedRow 5 (js "20") (js "A$20") (js "^[A-Z]{2}\d{8}$") 10 (js "2 Letters + 8 digits");
    seedRow 5 (js "50") (js "A$50") (js "^[A-Z]{2}\d{8}$") 10 (js "2 Letters + 8 digits");
    seedRow 5 (js "100") (js "A$100") (js "^[A-Z]{2}\d{8}$") 10 (js "2 Letters + 8 digits");
    (* Swiss Franc *)
    seedRow 6 (js "10") (js "CHF 10") (js "^\d{2}[A-Z]\d{7}$") 10 (js "2 digits + Letter + 7 digits");
    seedRow 6 (js "20") (js "CHF 20") (js "^\d{2}[A-Z]\d{7}$") 10 (js "2 digits + Letter + 7 digits");
    seedRow 6 (js "50") (js "CHF 50") (js "^\d{2}[A-Z]\d{7}$") 10 (js "2 digits + Letter + 7 digits");
    seedRow 6 (js "100") (js "CHF 100") (js "^\d{2}[A-Z]\d{7}$") 10 (js "2 digits + Letter + 7 digits");
    seedRow 6 (js "200") (js "CHF 200") (js "^\d{2}[A-Z]\d{7}$") 10 (js "2 digits + Letter + 7 digits");
    seedRow 6 (js "1000") (js "CHF 1000") (js "^\d{2}[A-Z]\d{7}$") 10 (js "2 digits + Letter + 7 digits");
    (* South African Rand *)
    seedRow 19 (js "10") (js "R10") (js "^[A-Z]{2}\d{7}$") 9 (js "2 Letters + 7 digits");
    seedRow 19 (js "20") (js "R20") (js "^[A-Z]{2}\d{7}$") 9 (js "2 Letters + 7 digits");
    seedRow 19 (js "50") (js "R50") (js "^[A-Z]{2}\d{7}$") 9 (js "2 Letters + 7 digits");
    seedRow 19 (js "100") (js "R100") (js "^[A-Z]{2}\d{7}$") 9 (js "2 Letters + 7 digits");
    seedRow 19 (js "200") (js "R200") (js "^[A-Z]{2}\d{7}$") 9 (js "2 Letters + 7 digits");
    (* Sri Lankan Rupee *)
    seedRow 20 (js "20") (js "Rs 20") (js "^[A-Z]\d{6}$") 7 (js "Letter + 6 digits");
    seedRow 20 (js "50") (js "Rs 50") (js "^[A-Z]\d{6}$") 7 (js "Letter + 6 digits");
    seedRow 20 (js "100") (js "Rs 100") (js "^[A-Z]\d{6}$") 7 (js "Letter + 6 digits");
    seedRow 20 (js "500") (js "Rs 500") (js "^[A-Z]\d{6}$") 7 (js "Letter + 6 digits");
    seedRow 20 (js "1000") (js "Rs 1000") (js "^[A-Z]\d{6}$") 7 (js "Letter + 6 digits");
    seedRow 20 (js "5000") (js "Rs 5000") (js "^[A-Z]\d{6}$") 7 (js "Letter + 6 digits") ].

(** Building one object of the literal: reading [.id] of an index that
    [createdCountries] does not have throws a [TypeError]. *)
Definition denominationOf (createdCountries : list Country.t) (r : DenominationSeed)
  : Outcome InsertDenomination.t :=
  match nth_error createdCountries (seedCountry r) with
  | Some c =>
      Return (InsertDenomination.mk (Country.id c) (seedValue r) (seedDisplayName r)
                (seedSerialFormat r) (seedSerialLength r)
                (seedPatternDescription r) None)
  | None => Throw TypeError
  end.

Fixpoint traverse {A B} (f : A -> Outcome B) (l : list A) : Outcome (list B) :=
  match l with
  | [] => Return []
  | a :: rest =>
      match f a with
      | Throw e => Throw e
      | Return b =>
          match traverse f rest with
          | Throw e => Throw e
          | Return bs => Return (b :: bs)
          end
      end
  end.

Definition denominationData (createdCountries : list Country.t)
  : Outcome (list InsertDenomination.t) :=
  traverse (denominationOf createdCountries) denominationSeeds.

Definition seedInitialData : Async unit :=
  existingCountries <- getCountries ;;
  if 0 <? Z.of_nat (List.length existingCountries) then ret tt
  else
    createdCountries <- Promise_all (map createCountry countryData) ;;
    match denominationData createdCountries with
    | Throw e => throw e
    | Return data =>
        _ <- Promise_all (map createDenomination data) ;;
        ret tt
    end.

(** ** [server/routes.ts]: [POST /api/verify] *)

Module VerifyResponse.
Record t := mk
  { country : jsstring; currency : jsstring; denomination : jsstring;
    serialNumber : jsstring; formatValid : bool; lengthValid : bool;
    isAuthentic : bool; patternDescription : jsstring; timestamp : Z }.
End VerifyResponse.

(** What the handler sends: [res.json(..)] with status 200, or one of the
    error statuses with its message. *)
Inductive Response :=
| Json (body : VerifyResponse.t)
| NotFound (message : jsstring)
| BadRequest (message : jsstring) (errors : list ZodIssue)
| ServerError (message : jsstring).

Definition status (r : Response) : Z :=
  match r with
  | Json _ => 200
  | NotFound _ => 404
  | BadRequest _ _ => 400
  | ServerError _ => 500
  end.

(** [new Date()].  The model reads one instant per request, the one the log
    row was stamped with: the time that passes between the insert and the
    answer, and any offset between the store's clock and the server's, are
    left out. *)
Definition Date_now : Async Z := fun w => (Return (clock w), w).

Section Routes.

(** The engine behind [new RegExp(source)]: [None] when the constructor
    throws, otherwise the [test] method of the new object.  The handler is
    written against any engine; [RegExp.new] is the one modelled above. *)
Variable newRegExp : jsstring -> option (jsstring -> bool).

(** The body of the [try] block. *)
Definition verifyBody (body : JsValue) : Async Response :=
  match verifyBanknoteSchema_parse body with
  | inl issues => throw (ZodError issues)
  | inr (mkRequest countryCode denomination serialNumber) =>
      country <- getCountryByCode countryCode ;;
      match country with
      | None => ret (NotFound (js "Country not found"))
      | Some country =>
          denominationData <- getDenomination (Country.id country) denomination ;;
          match denominationData with
          | None => ret (NotFound (js "Denomination not found"))
          | Some denominationData =>
              match newRegExp (Denomination.serialFormat denominationData) with
              | None => throw SyntaxError
              | Some serialRegex =>
                  let formatValid := serialRegex serialNumber in
                  let lengthValid :=
                    jslength serialNumber =? Denomination.serialLength denominationData in
                  let isAuthentic := formatValid && lengthValid in
                  _ <- createVerificationLog
                         (InsertVerificationLog.mk (Country.id country)
                            (Denomination.id denominationData) serialNumber
                            isAuthentic formatValid lengthValid) ;;
                  now <- Date_now ;;
                  ret (Json (VerifyResponse.mk (Country.name country)
                               (Country.currency country)
                               (Denomination.displayName denominationData)
                               serialNumber formatValid lengthValid isAuthentic
                               (Denomination.patternDescription denominationData)
                               now))
              end
          end
      end
  end.

(** The handler with its [catch] clause: the response and the world it
    leaves. *)
Definition postVerify (body : JsValue) (w : World) : Response * World :=
  match verifyBody body w with
  | (Return r, w') => (r, w')
  | (Throw (ZodError issues), w') =>
      (BadRequest (js "Invalid request data") issues, w')
  | (Throw _, w') => (ServerError (js "Verification failed"), w')
  end.

End Routes.

(** * Vocabulary of the statements *)

(** The request passes validation, both lookups find a row and the pattern
    of the rule compiles: the handler arrives at the check of the serial
    number against rule [d] with compiled pattern [rx]. *)
Definition reachesCheck (newRegExp : jsstring -> option (jsstring -> bool))
    (body : JsValue) (w : World)
    (rq : VerifyBanknoteRequest) (c : Country.t) (d : Denomination.t)
    (rx : jsstring -> bool) : Prop :=
  verifyBanknoteSchema_parse body = inr rq
  /\ fst (getCountryByCode (countryCode rq) w) = Return (Some c)
  /\ fst (getDenomination (Country.id c) (denomination rq) w) = Return (Some d)
  /\ newRegExp (Denomination.serialFormat d) = Some rx.

(** The rows of a batch of country inserts that the store will accept, given
    the codes it already holds. *)
Fixpoint countryRowsOk (codes : list jsstring) (l : list InsertCountry.t) : bool :=
  match l with
  | [] => true
  | r :: rest =>
      negb (existsb (fun c => jsstring_eqb c (InsertCountry.code r)) codes)
      && (jslength (InsertCountry.code r) <=? 3)
      && (jslength (InsertCountry.currency r) <=? 3)
      && (jslength (InsertCountry.currencySymbol r) <=? 5)
      && countryRowsOk (codes ++ [InsertCountry.code r]) rest
  end.

(** The rate the specification describes, in tenths of a percent:
    [100 * n / t] rounded to one decimal place, a tie going up. *)
Definition roundedTenths (n t : Z) : Z := (2000 * n + t) / (2 * t).

(** The number written with one decimal place, [k / 10]. *)
Definition tenths (k : Z) : JsNumber.t :=
  JsNumber.div (JsNumber.ofZ k) (JsNumber.ofZ 10).

(** ** Worlds and requests used as concrete inputs *)

Definition emptyStore : Store := mkStore [] [] [] 1 1 1.

Definition freshWorld : World := mkWorld emptyStore [] 1700000000000.

Definition seededWorld : World :=
  Eval vm_compute in snd (seedInitialData freshWorld).

Definition verifyRequest (countryCode denomination serialNumber : jsstring) : JsValue :=
  JsObject [ (js "countryCode", JsStringV countryCode);
             (js "denomination", JsStringV denomination);
             (js "serialNumber", JsStringV serialNumber) ].

(** The three flags of a 200 response, in the order [formatValid],
    [lengthValid], [isAuthentic]. *)
Definition flagsOf (r : Response) : option (bool * bool * bool) :=
  match r with
  | Json b => Some (VerifyResponse.formatValid b, VerifyResponse.lengthValid b,
                    VerifyResponse.isAuthentic b)
  | _ => None
  end.

(** Serving a list of verify requests one after the other. *)
Definition serveAll (bodies : list JsValue) (w : World) : World :=
  fold_left (fun w body => snd (postVerify RegExp.new body w)) bodies w.

(** A verify request for a rule of the seeded table and a serial number that
    passes it, and one that fails it on length. *)
Definition goodRequest : JsValue :=
  verifyRequest (js "US") (js "1") (js "B12345678C").
Definition badRequest : JsValue :=
  verifyRequest (js "US") (js "1") (js "B1234567 8C").

(** The seeded store after 23 authentic and 57 other verifications. *)
Definition tieWorld : World :=
  Eval vm_compute in
    serveAll (repeat goodRequest 23 ++ repeat badRequest 57) seededWorld.

(** The first seeded country and rule, as the seed stores them in an empty
    store, and the rule's pattern compiled. *)
Definition usCountry : Country.t :=
  Country.mk 1 (js "US") (js "United States") (js "USD") (js "$").

Definition usOneDollar : Denomination.t :=
  Denomination.mk 1 1 (js "1") (js "$1") (js "^[A-L]\d{8}[A-Z]$") 10
    (js "Letter + 8 digits + Letter") true.

Definition usPattern : RegExp.Pattern :=
  [ RegExp.TStart;
    RegExp.TRep (RegExp.AClass false [RegExp.CRange 65 76]) 1;
    RegExp.TRep (RegExp.AClass false [RegExp.CDigit true]) 8;
    RegExp.TRep (RegExp.AClass false [RegExp.CRange 65 90]) 1;
    RegExp.TEnd ].

(** A verify request for a country that the seed does not store. *)
Definition looseRequest : JsValue :=
  verifyRequest (js "XX") (js "1") (js "A123456").

(** The seeded UK rule, compiled, and a serial number with a tab between
    its two groups. *)
Definition ukPattern : RegExp.Pattern :=
  [ RegExp.TStart;
    RegExp.TRep (RegExp.AClass false [RegExp.CRange 65 90]) 2;
    RegExp.TRep (RegExp.AClass false [RegExp.CDigit true]) 2;
    RegExp.TRep (RegExp.AClass false [RegExp.CSpace true]) 1;
    RegExp.TRep (RegExp.AClass false [RegExp.CDigit true]) 6;
    RegExp.TEnd ].

Definition tabSerial : jsstring := js "AB12" ++ [9%N] ++ js "345678".

(** The source text of a pattern opens with [^] and closes with [$]. *)
Definition beginsWithCaret (src : jsstring) : Prop := exists r, src = 94%N :: r.
Definition endsWithDollar (src : jsstring) : Prop := exists r, src = r ++ [36%N].

Definition formatAnchoredb (src : jsstring) : bool :=
  match src with c :: _ => (c =? 94)%N | [] => false end
  && match rev src with c :: _ => (c =? 36)%N | [] => false end
  && match RegExp.compile src with
     | Some p => RegExp.anchoredb p
     | None => false
     end.

(** ** [server/routes.ts]: the read-only routes and [registerRoutes] *)

(** What a read-only route sends: [res.json(payload)] with status 200, or
    an error status with its message. *)
Inductive Reply (A : Type) :=
| Sent (payload : A)
| Failed (code : Z) (message : jsstring).
Arguments Sent {A} payload.
Arguments Failed {A} code message.

Definition replyStatus {A} (r : Reply A) : Z :=
  match r with
  | Sent _ => 200
  | Failed code _ => code
  end.

(** [GET /api/countries] *)
Definition getCountriesRoute (w : World) : Reply (list Country.t) * World :=
  match getCountries w with
  | (Return countries, w') => (Sent countries, w')
  | (Throw _, w') => (Failed 500 (js "Failed to fetch countries"), w')
  end.

(** [GET /api/countries/:countryCode/denominations]: the [try] block, then
    the handler with its [catch] clause. *)
Definition getDenominationsBody (countryCode : jsstring)
  : Async (Reply (list Denomination.t)) :=
  country <- getCountryByCode countryCode ;;
  match country with
  | None => ret (Failed 404 (js "Country not found"))
  | Some country =>
      denominations <- getDenominationsByCountry (Country.id country) ;;
      ret (Sent denominations)
  end.

Definition getDenominationsRoute (countryCode : jsstring) (w : World)
  : Reply (list Denomination.t) * World :=
  match getDenominationsBody countryCode w with
  | (Return r, w') => (r, w')
  | (Throw _, w') => (Failed 500 (js "Failed to fetch denominations"), w')
  end.

(** [GET /api/stats] *)
Definition getStatsRoute (w : World) : Reply Stats * World :=
  match getVerificationStats w with
  | (Return stats, w') => (Sent stats, w')
  | (Throw _, w') => (Failed 500 (js "Failed to fetch statistics"), w')
  end.

(** A request to one of the four routes, and what is sent back. *)
Inductive Request :=
| GET_countries
| GET_denominations (countryCode : jsstring)
| POST_verify (body : JsValue)
| GET_stats.

Inductive Answer :=
| CountriesAnswer (r : Reply (list Country.t))
| DenominationsAnswer (r : Reply (list Denomination.t))
| VerifyAnswer (r : Response)
| StatsAnswer (r : Reply Stats).

(** The routes that [registerRoutes] installs on the application. *)
Definition route (newRegExp : jsstring -> option (jsstring -> bool))
    (rq : Request) (w : World) : Answer * World :=
  match rq with
  | GET_countries =>
      let (r, w') := getCountriesRoute w in (CountriesAnswer r, w')
  | GET_denominations countryCode =>
      let (r, w') := getDenominationsRoute countryCode w in (DenominationsAnswer r, w')
  | POST_verify body =>
      let (r, w') := postVerify newRegExp body w in (VerifyAnswer r, w')
  | GET_stats =>
      let (r, w') := getStatsRoute w in (StatsAnswer r, w')
  end.

(** [registerRoutes]: seed the store, then hand back the server with its
    routes; a failing seed rejects the promise. *)
Definition registerRoutes (newRegExp : jsstring -> option (jsstring -> bool))
  : Async (Request -> World -> Answer * World) :=
  _ <- seedInitialData ;;
  ret (route newRegExp).

(** Requests served one after the other. *)
Fixpoint serve (server : Request -> World -> Answer * World)
    (requests : list Request) (w : World) : list Answer * World :=
  match requests with
  | [] => ([], w)
  | rq :: rest =>
      let (a, w1) := server rq w in
      let (answers, w2) := serve server rest w1 in
      (a :: answers, w2)
  end.

(** ** Vocabulary of the further statements *)

(** One store is another grown by seeding: the same log and log sequence,
    more countries and rules after the ones it had. *)
Definition storeGrows (s s' : Store) : Prop :=
  verificationLogs s' = verificationLogs s
  /\ verification_logs_id_seq s' = verification_logs_id_seq s
  /\ (exists cs, countries s' = countries s ++ cs)
  /\ (exists ds, denominations s' = denominations s ++ ds).

(** A log row is sound in a store: its verdict is the conjunction of its two
    checks, it names a stored country and a stored rule of that country,
    and its id was drawn from the log sequence. *)
Definition logSound (s : Store) (l : VerificationLog.t) : Prop :=
  VerificationLog.isAuthentic l
  = VerificationLog.formatValid l && VerificationLog.lengthValid l
  /\ (exists c d,
        In c (countries s) /\ In d (denominations s)
        /\ Country.id c = VerificationLog.countryId l
        /\ Denomination.id d = VerificationLog.denominationId l
        /\ Denomination.countryId d = Country.id c)
  /\ VerificationLog.id l < verification_logs_id_seq s.

Definition storeSound (s : Store) : Prop :=
  Forall (logSound s) (verificationLogs s)
  /\ NoDup (map VerificationLog.id (verificationLogs s)).

(** The number of characters a pattern consumes: the sum of its counts. *)
Fixpoint patternWidth (p : RegExp.Pattern) : nat :=
  match p with
  | [] => 0
  | RegExp.TRep _ n :: p' => n + patternWidth p'
  | _ :: p' => patternWidth p'
  end.

(** A rule whose anchored pattern consumes exactly [serialLength]
    characters. *)
Definition ruleConsistentb (src : jsstring) (len : Z) : bool :=
  match RegExp.compile src with
  | Some p => RegExp.anchoredb p && (Z.of_nat (patternWidth p) =? len)
  | None => false
  end.

(** The rows that a batch of accepted country inserts stores, the first
    under id [next]. *)
Fixpoint countriesFrom (next : Z) (l : list InsertCountry.t) : list Country.t :=
  match l with
  | [] => []
  | r :: rest =>
      Country.mk next (InsertCountry.code r) (InsertCountry.name r)
        (InsertCountry.currency r) (InsertCountry.currencySymbol r)
      :: countriesFrom (next + 1) rest
  end.

(** The rows that a batch of rule inserts stores, the first under id
    [next]. *)
Fixpoint denominationsFrom (next : Z) (l : list InsertDenomination.t)
  : list Denomination.t :=
  match l with
  | [] => []
  | r :: rest =>
      Denomination.mk next (InsertDenomination.countryId r)
        (InsertDenomination.value r) (InsertDenomination.displayName r)
        (InsertDenomination.serialFormat r) (InsertDenomination.serialLength r)
        (InsertDenomination.patternDescription r)
        (match InsertDenomination.isActive r with Some b => b | None => true end)
      :: denominationsFrom (next + 1) rest
  end.

(** The object of the [denominationData] literal for one entry, when the
    created countries took the ids from [first] on. *)
Definition seededInsert (first : Z) (r : DenominationSeed) : InsertDenomination.t :=
  InsertDenomination.mk (first + Z.of_nat (seedCountry r)) (seedValue r)
    (seedDisplayName r) (seedSerialFormat r) (seedSerialLength r)
    (seedPatternDescription r) None.

(** The store that seeding makes of a store without countries. *)
Definition seededStore (s : Store) : Store :=
  mkStore
    (countriesFrom (countries_id_seq s) countryData)
    (denominations s
     ++ denominationsFrom (denominations_id_seq s)
          (map (seededInsert (countries_id_seq s)) denominationSeeds))
    (verificationLogs s)
    (countries_id_seq s + 25)
    (denominations_id_seq s + 49)
    (verification_logs_id_seq s).

(** Two entries of the rule table for the same country and face value, and
    a table without two such entries. *)
Definition seedKeyEqb (a b : DenominationSeed) : bool :=
  Nat.eqb (seedCountry a) (seedCountry b)
  && jsstring_eqb (seedValue a) (seedValue b).

Fixpoint seedKeysDistinct (seeds : list DenominationSeed) : bool :=
  match seeds with
  | [] => true
  | r :: rest =>
      forallb (fun r' => negb (seedKeyEqb r r')) rest && seedKeysDistinct rest
  end.

(** The lower-case letters [a] to [z], and a pattern none of whose atoms
    matches one of them. *)
Definition isLower (c : N) : bool := RegExp.inRange 97 122 c.

Definition lowerLetters : list N := map N.of_nat (seq 97 26).

Definition patternRejectsLower (p : RegExp.Pattern) : bool :=
  forallb (fun t =>
             match t with
             | RegExp.TRep a _ =>
                 forallb (fun c => negb (RegExp.atomMatches a c)) lowerLetters
             | _ => true
             end) p.

Definition formatRejectsLower (src : jsstring) : bool :=
  match RegExp.compile src with
  | Some p => RegExp.anchoredb p && patternRejectsLower p
  | None => false
  end.

(** The answers to [goodRequest] and to the same request with a lower-case
    first letter, on the seeded store. *)
Definition goodResponse : VerifyResponse.t :=
  VerifyResponse.mk (js "United States") (js "USD") (js "$1")
    (js "B12345678C") true true true
    (js "Letter + 8 digits + Letter") 1700000000000.

Definition lowerRequest : JsValue :=
  verifyRequest (js "US") (js "1") (js "b12345678C").

Definition lowerResponse : VerifyResponse.t :=
  VerifyResponse.mk (js "United States") (js "USD") (js "$1")
    (js "b12345678C") false true false
    (js "Letter + 8 digits + Letter") 1700000000000.

(** The number of verifications answered 200 among some answers. *)
Fixpoint accepted (answers : list Answer) : nat :=
  match answers with
  | [] => 0
  | VerifyAnswer (Json _) :: rest => S (accepted rest)
  | _ :: rest => accepted rest
  end.

(** A store whose only rule has a pattern that the constructor rejects. *)
Definition brokenStore : Store :=
  mkStore
    [Country.mk 1 (js "XX") (js "Example") (js "XXX") (js "X")]
    [Denomination.mk 1 1 (js "1") (js "X1") (js "[A-Z") 7 (js "Letters") true]
    [] 2 2 1.

Definition brokenWorld : World := mkWorld brokenStore [] 1700000000000.

(** * Properties *)

(** ** Strings *)

Lemma jsstring_eqb_eq (a b : jsstring) : jsstring_eqb a b = true <-> a = b.
Proof.
  unfold jsstring_eqb. destruct (list_eq_dec N.eq_dec a b); split; congruence.
Qed.

Lemma jsstring_eqb_refl (a : jsstring) : jsstring_eqb a a = true.
Proof. now apply jsstring_eqb_eq. Qed.

(** ** The engine: searching against matching the whole input *)

Module RegExpFacts.
Import RegExp.

(** A pattern that opens with [^] cannot match at a later index. *)
Lemma search_start_later (q : Pattern) (s : jsstring) (i : nat) :
  search (TStart :: q) (S i) s = false.
Proof.
  revert i. induction s as [|c s IH]; intros i; simpl; auto.
Qed.

(** A pattern that closes with [$] leaves nothing unmatched. *)
Lemma matchAt_end_rest (q : Pattern) :
  forall i s r, matchAt (q ++ [TEnd]) i s = Some r -> r = [].
Proof.
  induction q as [|t q IH]; intros i s r H; simpl in H.
  - destruct s; [now inversion H | discriminate].
  - destruct t.
    + destruct (Nat.eqb i 0); [eauto | discriminate].
    + destruct s; [eauto | discriminate].
    + destruct (matchRep a n s); [eauto | discriminate].
Qed.

Lemma test_unfold (p : Pattern) (s : jsstring) :
  test p s =
  match matchAt p 0 s with
  | Some _ => true
  | None => match s with [] => false | _ :: r => search p 1 r end
  end.
Proof. unfold test. destruct s; reflexivity. Qed.

Lemma fullMatch_test (p : Pattern) (s : jsstring) :
  fullMatch p s = true -> test p s = true.
Proof.
  unfold fullMatch. rewrite test_unfold.
  destruct (matchAt p 0 s); [reflexivity | discriminate].
Qed.

Lemma anchored_test_fullMatch (p : Pattern) (s : jsstring) :
  anchored p -> test p s = fullMatch p s.
Proof.
  intros [q ->]. rewrite test_unfold. unfold fullMatch.
  destruct (matchAt (TStart :: q ++ [TEnd]) 0 s) as [r|] eqn:E.
  - change (TStart :: q ++ [TEnd]) with ((TStart :: q) ++ [TEnd]) in E.
    apply matchAt_end_rest in E. now subst r.
  - destruct s; [reflexivity | apply search_start_later].
Qed.

Lemma anchoredb_sound (p : Pattern) : anchoredb p = true -> anchored p.
Proof.
  destruct p as [|[| |] q]; simpl; try discriminate.
  destruct (rev q) as [|[| |] l] eqn:E; try discriminate.
  intros _. exists (rev l).
  rewrite <- (rev_involutive q), E. reflexivity.
Qed.

(** [search] finds a match exactly when some start index has one. *)
Lemma search_spec (p : Pattern) :
  forall s i,
    search p i s = true <->
    exists k, (k <= List.length s)%nat /\ matchAt p (i + k) (skipn k s) <> None.
Proof.
  induction s as [|c s IH]; intros i; simpl.
  - destruct (matchAt p i []) eqn:E.
    + split; [intros _ | reflexivity].
      exists 0%nat. rewrite Nat.add_0_r. simpl. split; [lia | congruence].
    + split; [discriminate |].
      intros [k [Hk H]]. assert (k = 0%nat) by lia. subst k.
      rewrite Nat.add_0_r in H. simpl in H. congruence.
  - destruct (matchAt p i (c :: s)) eqn:E.
    + split; [intros _ | reflexivity].
      exists 0%nat. rewrite Nat.add_0_r. simpl. split; [lia | congruence].
    + rewrite IH. split.
      * intros [k [Hk H]]. exists (S k). split; [lia |].
        simpl. now rewrite Nat.add_succ_r.
      * intros [k [Hk H]]. destruct k as [|k].
        -- rewrite Nat.add_0_r in H. simpl in H. congruence.
        -- exists k. split; [lia |]. simpl in H.
           now rewrite Nat.add_succ_r in H.
Qed.

Lemma test_spec (p : Pattern) (s : jsstring) :
  test p s = true <->
  exists k, (k <= List.length s)%nat /\ matchAt p k (skipn k s) <> None.
Proof. unfold test. now rewrite search_spec. Qed.

End RegExpFacts.

(** ** The verify handler *)

Section RoutesFacts.

Variable newRegExp : jsstring -> option (jsstring -> bool).

(** From there the handler always answers 200, with the three flags
    computed from the rule, and appends one log row carrying them. *)
Lemma postVerify_checked body w rq c d rx :
  reachesCheck newRegExp body w rq c d rx ->
  let sn := serialNumber rq in
  let fv := rx sn in
  let lv := jslength sn =? Denomination.serialLength d in
  exists w',
    postVerify newRegExp body w =
      (Json (VerifyResponse.mk (Country.name c) (Country.currency c)
               (Denomination.displayName d) sn fv lv (fv && lv)
               (Denomination.patternDescription d) (clock w)), w')
    /\ verificationLogs (db w') =
         verificationLogs (db w)
         ++ [VerificationLog.mk (verification_logs_id_seq (db w))
               (Country.id c) (Denomination.id d) sn (fv && lv) fv lv (clock w)]
    /\ countries (db w') = countries (db w)
    /\ denominations (db w') = denominations (db w).
Proof.
  intros (Hp & Hc & Hd & Hr). destruct rq as [cc dn sn]. simpl in *.
  unfold getCountryByCode in Hc. unfold getDenomination in Hd. simpl in *.
  injection Hc as Hc. injection Hd as Hd.
  eexists. unfold postVerify, verifyBody. rewrite Hp.
  unfold bind, getCountryByCode. rewrite Hc.
  unfold getDenomination. simpl. rewrite Hd, Hr. simpl.
  repeat split.
Qed.

(** Conversely, a 200 answer is only ever sent from the check. *)
Lemma postVerify_Json_inv body w r w' :
  postVerify newRegExp body w = (Json r, w') ->
  exists rq c d rx, reachesCheck newRegExp body w rq c d rx.
Proof.
  unfold postVerify, verifyBody, reachesCheck.
  destruct (verifyBanknoteSchema_parse body) as [issues|[cc dn sn]] eqn:Hp;
    [discriminate|].
  unfold bind, getCountryByCode, getDenomination. simpl.
  destruct (find _ (countries (db w))) as [c|] eqn:Hc; [|discriminate].
  simpl.
  destruct (find _ (denominations (db w))) as [d|] eqn:Hd; [|discriminate].
  destruct (newRegExp (Denomination.serialFormat d)) as [rx|] eqn:Hr;
    [|discriminate].
  intros _. exists (mkRequest cc dn sn), c, d, rx. simpl.
  rewrite Hc, Hd. auto.
Qed.

(** A rejected request: the handler answers 400 from the world it was
    given, which it returns untouched. *)
Lemma postVerify_invalid body w issues :
  verifyBanknoteSchema_parse body = inl issues ->
  postVerify newRegExp body w =
    (BadRequest (js "Invalid request data") issues, w).
Proof.
  intros Hp. unfold postVerify, verifyBody. now rewrite Hp.
Qed.

Lemma postVerify_unknown_country body w rq :
  verifyBanknoteSchema_parse body = inr rq ->
  fst (getCountryByCode (countryCode rq) w) = Return None ->
  postVerify newRegExp body w =
    (NotFound (js "Country not found"),
     send (SelectCountryByCode (countryCode rq)) w).
Proof.
  intros Hp Hc. destruct rq as [cc dn sn]. simpl in *.
  unfold getCountryByCode in Hc. simpl in Hc. injection Hc as Hc.
  unfold postVerify, verifyBody. rewrite Hp.
  unfold bind, getCountryByCode. now rewrite Hc.
Qed.

End RoutesFacts.

(** Validation rejects a body whose three fields are strings as soon as one
    of them breaks its length bounds. *)
Lemma parse_rejects fields cc dn sn :
  getField fields (js "countryCode") = JsStringV cc ->
  getField fields (js "denomination") = JsStringV dn ->
  getField fields (js "serialNumber") = JsStringV sn ->
  20 < jslength sn \/ jslength cc < 2 \/ 3 < jslength cc \/ jslength dn < 1 ->
  exists i issues,
    verifyBanknoteSchema_parse (JsObject fields) = inl (i :: issues).
Proof.
  intros Hc Hd Hs Hbad. unfold verifyBanknoteSchema_parse.
  rewrite Hc, Hd, Hs.
  match goal with |- context [match ?l with [] => _ | _ => _ end] =>
    destruct l as [|i issues] eqn:E end.
  - exfalso.
    apply app_eq_nil in E as [E1 E]. apply app_eq_nil in E as [E2 E3].
    unfold zString in E1, E2, E3.
    apply app_eq_nil in E1 as [E1a E1b].
    apply app_eq_nil in E2 as [E2a _].
    apply app_eq_nil in E3 as [_ E3b].
    destruct (jslength cc <? 2) eqn:C1; [discriminate |].
    destruct (3 <? jslength cc) eqn:C2; [discriminate |].
    destruct (jslength dn <? 1) eqn:C3; [discriminate |].
    destruct (20 <? jslength sn) eqn:C4; [discriminate |].
    apply Z.ltb_ge in C1, C2, C3, C4. lia.
  - eauto.
Qed.

(** ** Seeding *)

Lemma existsb_map {A B} (f : B -> bool) (g : A -> B) (l : list A) :
  existsb f (map g l) = existsb (fun a => f (g a)) l.
Proof. induction l; simpl; congruence. Qed.

Lemma Promise_all_cons {A} (m : Async A) (rest : list (Async A)) (w : World) :
  Promise_all (m :: rest) w =
  match m w with
  | (Return a, w1) =>
      match Promise_all rest w1 with
      | (Return l, w2) => (Return (a :: l), w2)
      | (Throw e, w2) => (Throw e, w2)
      end
  | (Throw e, w1) => (Throw e, snd (Promise_all rest w1))
  end.
Proof. reflexivity. Qed.

Lemma createCountry_ok (r : InsertCountry.t) (w : World) :
  countryRowOk (db w) r = true ->
  exists row w',
    createCountry r w = (Return row, w')
    /\ Country.code row = InsertCountry.code r
    /\ countries (db w') = countries (db w) ++ [row]
    /\ denominations (db w') = denominations (db w)
    /\ verificationLogs (db w') = verificationLogs (db w).
Proof.
  intros Hr. unfold createCountry. rewrite Hr.
  do 2 eexists. split; [reflexivity|]. simpl. auto.
Qed.

Lemma createCountries_ok (l : list InsertCountry.t) :
  forall w,
    countryRowsOk (map Country.code (countries (db w))) l = true ->
    exists rows w',
      Promise_all (map createCountry l) w = (Return rows, w')
      /\ List.length rows = List.length l
      /\ countries (db w') = countries (db w) ++ rows
      /\ denominations (db w') = denominations (db w)
      /\ verificationLogs (db w') = verificationLogs (db w).
Proof.
  induction l as [|r rest IH]; intros w Hok.
  - exists [], w. simpl. rewrite app_nil_r. auto.
  - simpl in Hok.
    apply andb_prop in Hok as [Hrow Hrest].
    assert (Hr : countryRowOk (db w) r = true).
    { unfold countryRowOk. rewrite existsb_map in Hrow. exact Hrow. }
    destruct (createCountry_ok r w Hr) as (row & w1 & E1 & Hcode & Hc1 & Hd1 & Hl1).
    destruct (IH w1) as (rows & w2 & E2 & Hlen & Hc2 & Hd2 & Hl2).
    { rewrite Hc1, map_app. simpl. now rewrite Hcode. }
    exists (row :: rows), w2.
    change (map createCountry (r :: rest))
      with (createCountry r :: map createCountry rest).
    rewrite Promise_all_cons, E1, E2. simpl.
    rewrite Hc2, Hc1, <- app_assoc, Hd2, Hd1, Hl2, Hl1, Hlen. auto.
Qed.

Lemma createDenominations_ok (data : list InsertDenomination.t) :
  forall w,
    exists rows w',
      Promise_all (map createDenomination data) w = (Return rows, w')
      /\ map Denomination.serialFormat rows
         = map InsertDenomination.serialFormat data
      /\ denominations (db w') = denominations (db w) ++ rows
      /\ countries (db w') = countries (db w)
      /\ verificationLogs (db w') = verificationLogs (db w).
Proof.
  induction data as [|r rest IH]; intros w.
  - exists [], w. simpl. rewrite app_nil_r. auto.
  - destruct (createDenomination r w) as [o w1] eqn:E1.
    assert (H1 : exists row, o = Return row
                 /\ Denomination.serialFormat row = InsertDenomination.serialFormat r
                 /\ denominations (db w1) = denominations (db w) ++ [row]
                 /\ countries (db w1) = countries (db w)
                 /\ verificationLogs (db w1) = verificationLogs (db w)).
    { unfold createDenomination in E1. injection E1 as <- <-.
      eexists. split; [reflexivity|]. simpl. auto. }
    destruct H1 as (row & -> & Hf1 & Hd1 & Hc1 & Hl1).
    destruct (IH w1) as (rows & w2 & E2 & Hfmt & Hd2 & Hc2 & Hl2).
    exists (row :: rows), w2.
    change (map createDenomination (r :: rest))
      with (createDenomination r :: map createDenomination rest).
    rewrite Promise_all_cons, E1, E2. simpl.
    rewrite Hfmt, Hf1, Hd2, Hd1, <- app_assoc, Hc2, Hc1, Hl2, Hl1. auto.
Qed.

Lemma traverse_denominationOf_ok (created : list Country.t) (seeds : list DenominationSeed) :
  forallb (fun r => Nat.ltb (seedCountry r) (List.length created)) seeds = true ->
  exists data,
    traverse (denominationOf created) seeds = Return data
    /\ map InsertDenomination.serialFormat data = map seedSerialFormat seeds.
Proof.
  induction seeds as [|r rest IH]; simpl; intros H.
  - exists []. auto.
  - apply andb_prop in H as [Hr Hrest].
    destruct (IH Hrest) as (data & Ht & Hf). rewrite Ht.
    apply Nat.ltb_lt in Hr. apply nth_error_Some in Hr.
    unfold denominationOf at 1.
    destruct (nth_error created (seedCountry r)); [|congruence].
    eexists. split; [reflexivity|]. simpl. now rewrite Hf.
Qed.

(** On a store without countries the seed runs to its end: all 25 countries
    are accepted and the 49 rules are appended with the formats of the
    literal. *)
Lemma seedInitialData_fresh (w : World) :
  countries (db w) = [] ->
  exists w' crows drows,
    seedInitialData w = (Return tt, w')
    /\ countries (db w') = crows
    /\ List.length crows = 25%nat
    /\ denominations (db w') = denominations (db w) ++ drows
    /\ map Denomination.serialFormat drows = map seedSerialFormat denominationSeeds
    /\ verificationLogs (db w') = verificationLogs (db w).
Proof.
  intros Hempty.
  destruct (createCountries_ok countryData (send SelectCountries w))
    as (crows & w1 & E1 & Hlen & Hcs & Hds & Hls).
  { simpl db. rewrite Hempty. vm_compute. reflexivity. }
  destruct (traverse_denominationOf_ok crows denominationSeeds)
    as (data & Ht & Hf).
  { rewrite Hlen. vm_compute. reflexivity. }
  destruct (createDenominations_ok data w1)
    as (drows & w2 & E2 & Hfmt & Hds' & Hcs' & Hls').
  exists w2, crows, drows.
  unfold seedInitialData, bind, getCountries. rewrite Hempty.
  change (0 <? Z.of_nat (List.length (@nil Country.t))) with false.
  cbv beta iota. rewrite E1. unfold denominationData. rewrite Ht.
  cbv beta iota. rewrite E2. unfold ret.
  rewrite Hcs', Hcs, Hds', Hds, Hls', Hls, Hfmt, Hf.
  change (db (send SelectCountries w)) with (db w).
  rewrite Hempty. simpl. repeat split; auto.
Qed.

(** With a country already present the seed reads the table and stops. *)
Lemma seedInitialData_noop (w : World) :
  countries (db w) <> [] ->
  seedInitialData w = (Return tt, send SelectCountries w).
Proof.
  intros Hne. unfold seedInitialData, bind, getCountries.
  destruct (countries (db w)) as [|c cs]; [congruence|].
  change (List.length (c :: cs)) with (S (List.length cs)).
  destruct (0 <? Z.of_nat (S (List.length cs))) eqn:E; [reflexivity|].
  apply Z.ltb_ge in E. lia.
Qed.

(** ** Statistics *)

Lemma filter_length_split {A} (f : A -> bool) (l : list A) :
  (List.length (filter f l) + List.length (filter (fun a => negb (f a)) l)
   = List.length l)%nat.
Proof.
  induction l as [|a l IH]; simpl; [reflexivity|].
  destruct (f a); simpl; lia.
Qed.

(** The three counts, for any log: with [N] authentic and [M] other rows the
    totals are [N + M], [N] and [M]. *)
Lemma statsOf_counts (logs : list VerificationLog.t) :
  let N := Z.of_nat (List.length (filter VerificationLog.isAuthentic logs)) in
  let M := Z.of_nat (List.length
             (filter (fun l => negb (VerificationLog.isAuthentic l)) logs)) in
  totalVerified (statsOf logs) = N + M
  /\ authentic (statsOf logs) = N
  /\ suspicious (statsOf logs) = M.
Proof.
  simpl. pose proof (filter_length_split VerificationLog.isAuthentic logs).
  repeat split; lia.
Qed.

(** ** Concrete worlds *)

Lemma seededWorld_eq : seedInitialData freshWorld = (Return tt, seededWorld).
Proof. vm_compute. reflexivity. Qed.

(** ** The flags of a verification *)

(** C1: whenever a verify request gets as far as the check, the handler
    answers with [isAuthentic] equal to [formatValid && lengthValid], stores
    one log row with the same three flags, and so never reports a note as
    authentic when one of the two checks failed. *)
Theorem isAuthentic_is_conjunction
    (newRegExp : jsstring -> option (jsstring -> bool))
    (body : JsValue) (w : World) (rq : VerifyBanknoteRequest)
    (c : Country.t) (d : Denomination.t) (rx : jsstring -> bool) :
  reachesCheck newRegExp body w rq c d rx ->
  exists r w' log,
    postVerify newRegExp body w = (Json r, w')
    /\ verificationLogs (db w') = verificationLogs (db w) ++ [log]
    /\ VerifyResponse.isAuthentic r
       = VerifyResponse.formatValid r && VerifyResponse.lengthValid r
    /\ VerificationLog.isAuthentic log
       = VerificationLog.formatValid log && VerificationLog.lengthValid log
    /\ VerificationLog.isAuthentic log = VerifyResponse.isAuthentic r
    /\ VerificationLog.formatValid log = VerifyResponse.formatValid r
    /\ VerificationLog.lengthValid log = VerifyResponse.lengthValid r
    /\ (VerifyResponse.isAuthentic r = true ->
        VerifyResponse.formatValid r = true /\ VerifyResponse.lengthValid r = true).
Proof.
  intros H.
  destruct (postVerify_checked newRegExp body w rq c d rx H)
    as (w' & E & Hlog & _ & _).
  do 3 eexists. split; [exact E|]. split; [exact Hlog|]. simpl.
  do 5 (split; [reflexivity|]).
  intros Hauth. now apply andb_prop in Hauth.
Qed.

Lemma isAuthentic_is_conjunction_witness :
  exists r w' log,
    postVerify RegExp.new goodRequest seededWorld = (Json r, w')
    /\ verificationLogs (db w') = verificationLogs (db seededWorld) ++ [log]
    /\ VerifyResponse.isAuthentic r
       = VerifyResponse.formatValid r && VerifyResponse.lengthValid r
    /\ VerificationLog.isAuthentic log
       = VerificationLog.formatValid log && VerificationLog.lengthValid log
    /\ VerificationLog.isAuthentic log = VerifyResponse.isAuthentic r
    /\ VerificationLog.formatValid log = VerifyResponse.formatValid r
    /\ VerificationLog.lengthValid log = VerifyResponse.lengthValid r
    /\ (VerifyResponse.isAuthentic r = true ->
        VerifyResponse.formatValid r = true /\ VerifyResponse.lengthValid r = true).
Proof.
  apply (isAuthentic_is_conjunction RegExp.new goodRequest seededWorld
           (mkRequest (js "US") (js "1") (js "B12345678C"))
           usCountry usOneDollar (RegExp.test usPattern)).
  unfold reachesCheck. repeat split; vm_compute; reflexivity.
Defined.

(** C5: in the answer to a request that gets as far as the check,
    [lengthValid] holds exactly when the serial number has as many
    characters as the rule's [serialLength]; one fewer or one more fails.
    Characters are counted as [.length] counts them, in UTF-16 code units. *)
Theorem lengthValid_exact
    (newRegExp : jsstring -> option (jsstring -> bool))
    (body : JsValue) (w : World) (rq : VerifyBanknoteRequest)
    (c : Country.t) (d : Denomination.t) (rx : jsstring -> bool) :
  reachesCheck newRegExp body w rq c d rx ->
  exists r w',
    postVerify newRegExp body w = (Json r, w')
    /\ (VerifyResponse.lengthValid r = true <->
        Z.of_nat (List.length (serialNumber rq)) = Denomination.serialLength d)
    /\ (Z.of_nat (List.length (serialNumber rq)) = Denomination.serialLength d - 1 ->
        VerifyResponse.lengthValid r = false)
    /\ (Z.of_nat (List.length (serialNumber rq)) = Denomination.serialLength d + 1 ->
        VerifyResponse.lengthValid r = false).
Proof.
  intros H.
  destruct (postVerify_checked newRegExp body w rq c d rx H)
    as (w' & E & _).
  do 2 eexists. split; [exact E|]. simpl. unfold jslength.
  split; [apply Z.eqb_eq|].
  split; intros Hlen; apply Z.eqb_neq; lia.
Qed.

Lemma lengthValid_exact_witness :
  exists r w',
    postVerify RegExp.new badRequest seededWorld = (Json r, w')
    /\ (VerifyResponse.lengthValid r = true <->
        Z.of_nat (List.length (js "B1234567 8C")) = 10)
    /\ (Z.of_nat (List.length (js "B1234567 8C")) = 10 - 1 ->
        VerifyResponse.lengthValid r = false)
    /\ (Z.of_nat (List.length (js "B1234567 8C")) = 10 + 1 ->
        VerifyResponse.lengthValid r = false).
Proof.
  apply (lengthValid_exact RegExp.new badRequest seededWorld
           (mkRequest (js "US") (js "1") (js "B1234567 8C"))
           usCountry usOneDollar (RegExp.test usPattern)).
  unfold reachesCheck. repeat split; vm_compute; reflexivity.
Defined.

(** ** Requests that are turned away *)

(** C7: a valid request whose country code matches no stored country is
    answered 404; the handler has sent the one country lookup and the store,
    the log included, is as it was. *)
Theorem unknown_country_404
    (newRegExp : jsstring -> option (jsstring -> bool))
    (body : JsValue) (w : World) (rq : VerifyBanknoteRequest) :
  verifyBanknoteSchema_parse body = inr rq ->
  fst (getCountryByCode (countryCode rq) w) = Return None ->
  exists w',
    postVerify newRegExp body w = (NotFound (js "Country not found"), w')
    /\ status (fst (postVerify newRegExp body w)) = 404
    /\ db w' = db w
    /\ verificationLogs (db w') = verificationLogs (db w)
    /\ queries w' = queries w ++ [SelectCountryByCode (countryCode rq)].
Proof.
  intros Hp Hc.
  rewrite (postVerify_unknown_country newRegExp body w rq Hp Hc).
  eexists. split; [reflexivity|]. simpl. auto.
Qed.

Lemma unknown_country_404_witness :
  exists w',
    postVerify RegExp.new
      (verifyRequest (js "ZZ") (js "5") (js "AB12345678")) seededWorld
    = (NotFound (js "Country not found"), w')
    /\ status (fst (postVerify RegExp.new
         (verifyRequest (js "ZZ") (js "5") (js "AB12345678")) seededWorld)) = 404
    /\ db w' = db seededWorld
    /\ verificationLogs (db w') = verificationLogs (db seededWorld)
    /\ queries w' = queries seededWorld ++ [SelectCountryByCode (js "ZZ")].
Proof.
  apply (unknown_country_404 RegExp.new
           (verifyRequest (js "ZZ") (js "5") (js "AB12345678")) seededWorld
           (mkRequest (js "ZZ") (js "5") (js "AB12345678"))).
  - vm_compute. reflexivity.
  - vm_compute. reflexivity.
Defined.

(** C8: a request whose [serialNumber] has more than 20 code units, or whose
    [countryCode] has fewer than 2 or more than 3, or whose [denomination]
    is empty, is answered 400 with the validation issues; the world comes
    back unchanged, so no statement was sent to the store: neither lookup
    has run and nothing was written. *)
Theorem invalid_request_400
    (newRegExp : jsstring -> option (jsstring -> bool))
    (fields : list (jsstring * JsValue)) (w : World) (cc dn sn : jsstring) :
  getField fields (js "countryCode") = JsStringV cc ->
  getField fields (js "denomination") = JsStringV dn ->
  getField fields (js "serialNumber") = JsStringV sn ->
  20 < jslength sn \/ jslength cc < 2 \/ 3 < jslength cc \/ jslength dn < 1 ->
  exists i issues,
    postVerify newRegExp (JsObject fields) w
    = (BadRequest (js "Invalid request data") (i :: issues), w)
    /\ status (fst (postVerify newRegExp (JsObject fields) w)) = 400
    /\ queries (snd (postVerify newRegExp (JsObject fields) w)) = queries w
    /\ db (snd (postVerify newRegExp (JsObject fields) w)) = db w.
Proof.
  intros Hc Hd Hs Hbad.
  destruct (parse_rejects fields cc dn sn Hc Hd Hs Hbad) as (i & issues & Hp).
  exists i, issues.
  rewrite (postVerify_invalid newRegExp _ w _ Hp). simpl. auto.
Qed.

Lemma invalid_request_400_witness :
  exists i issues,
    postVerify RegExp.new
      (verifyRequest (js "US") (js "1") (js "B12345678C12345678901")) seededWorld
    = (BadRequest (js "Invalid request data") (i :: issues), seededWorld)
    /\ status (fst (postVerify RegExp.new
         (verifyRequest (js "US") (js "1") (js "B12345678C12345678901"))
         seededWorld)) = 400
    /\ queries (snd (postVerify RegExp.new
         (verifyRequest (js "US") (js "1") (js "B12345678C12345678901"))
         seededWorld)) = queries seededWorld
    /\ db (snd (postVerify RegExp.new
         (verifyRequest (js "US") (js "1") (js "B12345678C12345678901"))
         seededWorld)) = db seededWorld.
Proof.
  apply (invalid_request_400 RegExp.new _ seededWorld
           (js "US") (js "1") (js "B12345678C12345678901")).
  - vm_compute. reflexivity.
  - vm_compute. reflexivity.
  - vm_compute. reflexivity.
  - left. vm_compute. reflexivity.
Defined.

(** ** The engine behind the handler *)

Lemma new_inv (src : jsstring) (rx : jsstring -> bool) :
  RegExp.new src = Some rx ->
  exists p, RegExp.compile src = Some p /\ rx = RegExp.test p.
Proof.
  unfold RegExp.new. destruct (RegExp.compile src) as [p|]; simpl; [|discriminate].
  intros H. injection H as <-. eauto.
Qed.

(** ** The UK rule *)

Lemma ukPattern_compiled :
  RegExp.compile (js "^[A-Z]{2}\d{2}\s\d{6}$") = Some ukPattern.
Proof. vm_compute. reflexivity. Qed.

(** The serial number of the scenario, ten characters without a space,
    fails both checks. *)
Lemma uk5_no_space_rejected :
  flagsOf (fst (postVerify RegExp.new
                  (verifyRequest (js "UK") (js "5") (js "AB12345678")) seededWorld))
  = Some (false, false, false).
Proof. vm_compute. reflexivity. Qed.

Lemma matchRep_split (a : RegExp.Atom) (n : nat) :
  forall s r,
    RegExp.matchRep a n s = Some r ->
    exists pre, s = pre ++ r /\ List.length pre = n
                /\ forallb (RegExp.atomMatches a) pre = true.
Proof.
  induction n as [|n IH]; intros s r H; simpl in H.
  - injection H as <-. exists []. auto.
  - destruct s as [|c s]; [discriminate|].
    destruct (RegExp.atomMatches a c) eqn:E; [|discriminate].
    destruct (IH s r H) as (pre & -> & Hlen & Hall).
    exists (c :: pre). simpl. rewrite E, Hall, Hlen. auto.
Qed.

(** What the UK pattern does require of a serial number that it accepts:
    eleven code units, the fifth of which is in the class [\s]. *)
Lemma ukPattern_fifth_is_whitespace (s : jsstring) :
  RegExp.test ukPattern s = true ->
  List.length s = 11%nat
  /\ exists c, nth_error s 4 = Some c /\ RegExp.isSpace c = true.
Proof.
  intros H.
  rewrite (RegExpFacts.anchored_test_fullMatch ukPattern s) in H
    by (apply RegExpFacts.anchoredb_sound; reflexivity).
  unfold RegExp.fullMatch, ukPattern in H.
  cbn [RegExp.matchAt Nat.eqb] in H.
  destruct (RegExp.matchRep _ 2 s) as [r1|] eqn:E1; [|discriminate].
  destruct (RegExp.matchRep _ 2 r1) as [r2|] eqn:E2; [|discriminate].
  destruct (RegExp.matchRep _ 1 r2) as [r3|] eqn:E3; [|discriminate].
  destruct (RegExp.matchRep _ 6 r3) as [r4|] eqn:E4; [|discriminate].
  destruct r4; [|discriminate].
  apply matchRep_split in E1 as (p1 & -> & L1 & _).
  apply matchRep_split in E2 as (p2 & -> & L2 & _).
  apply matchRep_split in E3 as (p3 & -> & L3 & A3).
  apply matchRep_split in E4 as (p4 & -> & L4 & _).
  destruct p3 as [|c [|? ?]]; try discriminate.
  split.
  - rewrite !length_app, L1, L2, L4. reflexivity.
  - exists c. split.
    + rewrite nth_error_app2 by lia. rewrite L1.
      rewrite nth_error_app2 by lia. rewrite L2. reflexivity.
    + simpl in A3. rewrite orb_false_r, andb_true_r in A3.
      destruct (RegExp.isSpace c); [reflexivity | discriminate].
Qed.

(** C6: the UK rule accepts a serial number whose fifth character is a tab.
    The request for a 5 pound note with the serial number [AB12], tab,
    [345678] passes both checks and is reported authentic. *)
Theorem uk5_tab_serial_accepted :
  flagsOf (fst (postVerify RegExp.new
                  (verifyRequest (js "UK") (js "5") tabSerial) seededWorld))
  = Some (true, true, true)
  /\ nth_error tabSerial 4 = Some 9%N
  /\ nth_error tabSerial 4 <> Some 32%N
  /\ RegExp.test ukPattern tabSerial = true.
Proof. vm_compute. repeat split. discriminate. Qed.

(** ** Statistics of the log *)

Lemma tieWorld_eq :
  tieWorld = serveAll (repeat goodRequest 23 ++ repeat badRequest 57) seededWorld.
Proof. vm_compute. reflexivity. Qed.

Lemma tieWorld_log :
  List.length (filter VerificationLog.isAuthentic (verificationLogs (db tieWorld)))
  = 23%nat
  /\ List.length (filter (fun l => negb (VerificationLog.isAuthentic l))
                    (verificationLogs (db tieWorld)))
     = 57%nat.
Proof. vm_compute. split; reflexivity. Qed.

(** C3: after 23 authentic and 57 other verifications the counts are 80, 23
    and 57, and the success rate returned is 28.7; the exact rate is 28.75,
    which rounds to 28.8.  The quotient 23/80 is not a binary fraction, and
    its product with 100 comes out just below 28.75; dividing 100 * 23 by
    80 instead stays exact and yields 28.8. *)
Theorem successRate_tie_23_of_80 :
  fst (getVerificationStats tieWorld) = Return (mkStats 80 23 57 (tenths 287))
  /\ 2 * (1000 * 23) = (2 * 287 + 1) * 80
  /\ roundedTenths 23 (23 + 57) = 288
  /\ tenths 287 <> tenths 288
  /\ JsNumber.div
       (JsNumber.round
          (JsNumber.mul
             (JsNumber.div (JsNumber.mul (JsNumber.ofZ 100) (JsNumber.ofZ 23))
                (JsNumber.ofZ 80))
             (JsNumber.ofZ 10)))
       (JsNumber.ofZ 10)
     = tenths 288.
Proof. vm_compute. repeat split. discriminate. Qed.

(** C4: with an empty log the statistics are 0, 0, 0 and a success rate of
    (positive) zero, which is a number. *)
Theorem stats_of_empty_log (w : World) :
  verificationLogs (db w) = [] ->
  fst (getVerificationStats w) = Return (mkStats 0 0 0 (JsNumber.ofZ 0))
  /\ JsNumber.ofZ 0 = S754_zero false
  /\ JsNumber.isNaN (JsNumber.ofZ 0) = false.
Proof.
  intros H. unfold getVerificationStats. simpl. rewrite H.
  vm_compute. auto.
Qed.

Lemma stats_of_empty_log_witness :
  fst (getVerificationStats seededWorld) = Return (mkStats 0 0 0 (JsNumber.ofZ 0))
  /\ JsNumber.ofZ 0 = S754_zero false
  /\ JsNumber.isNaN (JsNumber.ofZ 0) = false.
Proof.
  apply (stats_of_empty_log seededWorld). vm_compute. reflexivity.
Defined.

(** ** The seed *)

Lemma formatAnchoredb_sound (src : jsstring) :
  formatAnchoredb src = true ->
  beginsWithCaret src /\ endsWithDollar src
  /\ exists p, RegExp.compile src = Some p
               /\ forall s, RegExp.test p s = RegExp.fullMatch p s.
Proof.
  unfold formatAnchoredb. intros H.
  apply andb_prop in H as [H Hc]. apply andb_prop in H as [Hb He].
  destruct src as [|c0 r]; [discriminate Hb|].
  apply N.eqb_eq in Hb. subst c0. revert He Hc.
  destruct (rev _) as [|c1 l] eqn:E; [discriminate|].
  intros He. apply N.eqb_eq in He. subst c1.
  destruct (RegExp.compile _) as [p|]; [intros Hc|discriminate].
  split; [exists r; reflexivity|].
  split.
  - exists (rev l). apply (f_equal (@rev _)) in E.
    rewrite rev_involutive in E. exact E.
  - exists p. split; [reflexivity|]. intros s.
    now apply RegExpFacts.anchored_test_fullMatch, RegExpFacts.anchoredb_sound.
Qed.

(** C9: run on a store without countries, the seed completes and appends 49
    rules; the format of each opens with [^] and closes with [$], it
    compiles, and for it the engine's search is the whole-string match. *)
Theorem seeded_formats_anchored (w : World) :
  countries (db w) = [] ->
  exists w' rows,
    seedInitialData w = (Return tt, w')
    /\ denominations (db w') = denominations (db w) ++ rows
    /\ List.length rows = 49%nat
    /\ Forall (fun d =>
                 beginsWithCaret (Denomination.serialFormat d)
                 /\ endsWithDollar (Denomination.serialFormat d)
                 /\ exists p,
                      RegExp.compile (Denomination.serialFormat d) = Some p
                      /\ forall s, RegExp.test p s = RegExp.fullMatch p s)
              rows.
Proof.
  intros Hempty.
  destruct (seedInitialData_fresh w Hempty)
    as (w' & crows & drows & E & _ & _ & Hds & Hfmt & _).
  exists w', drows. split; [exact E|]. split; [exact Hds|]. split.
  - rewrite <- (length_map Denomination.serialFormat), Hfmt. reflexivity.
  - apply Forall_forall. intros d Hd.
    apply formatAnchoredb_sound.
    assert (Hall : forallb formatAnchoredb (map seedSerialFormat denominationSeeds) = true)
      by (vm_compute; reflexivity).
    rewrite forallb_forall in Hall. apply Hall.
    rewrite <- Hfmt. now apply in_map.
Qed.

Lemma seeded_formats_anchored_witness :
  exists w' rows,
    seedInitialData freshWorld = (Return tt, w')
    /\ denominations (db w') = denominations (db freshWorld) ++ rows
    /\ List.length rows = 49%nat
    /\ Forall (fun d =>
                 beginsWithCaret (Denomination.serialFormat d)
                 /\ endsWithDollar (Denomination.serialFormat d)
                 /\ exists p,
                      RegExp.compile (Denomination.serialFormat d) = Some p
                      /\ forall s, RegExp.test p s = RegExp.fullMatch p s)
              rows.
Proof.
  apply (seeded_formats_anchored freshWorld). reflexivity.
Defined.

(** C10: when the store already holds a country the seed returns after
    reading the countries and the store is exactly as before. *)
Theorem seed_noop_when_seeded (w : World) :
  countries (db w) <> [] ->
  exists w',
    seedInitialData w = (Return tt, w')
    /\ db w' = db w
    /\ queries w' = queries w ++ [SelectCountries].
Proof.
  intros Hne. rewrite (seedInitialData_noop w Hne).
  eexists. split; [reflexivity|]. simpl. auto.
Qed.

Lemma seed_noop_when_seeded_witness :
  exists w',
    seedInitialData seededWorld = (Return tt, w')
    /\ db w' = db seededWorld
    /\ queries w' = queries seededWorld ++ [SelectCountries].
Proof.
  apply (seed_noop_when_seeded seededWorld). vm_compute. discriminate.
Defined.

(** Seeding twice in a row: the second run leaves the store of the first. *)
Lemma seedInitialData_twice (w : World) :
  countries (db w) = [] ->
  db (snd (seedInitialData (snd (seedInitialData w))))
  = db (snd (seedInitialData w)).
Proof.
  intros Hempty.
  destruct (seedInitialData_fresh w Hempty)
    as (w' & crows & drows & E & Hcs & Hlen & _).
  rewrite E. simpl.
  rewrite seedInitialData_noop; [reflexivity|].
  rewrite Hcs. destruct crows; [discriminate | congruence].
Qed.

(** * Further properties *)

(** ** Validation of the request body *)

Lemma zString_passes (lo : Z) (hi : option Z) (key : jsstring) (v : JsValue) :
  zString lo hi key v = [] <->
  exists s, v = JsStringV s /\ lo <= jslength s
            /\ match hi with Some h => jslength s <= h | None => True end.
Proof.
  split.
  - destruct v; simpl; try discriminate. intros H.
    apply app_eq_nil in H as [Hlo Hhi]. exists s. split; [reflexivity|].
    destruct (jslength s <? lo) eqn:E1; [discriminate|].
    apply Z.ltb_ge in E1. split; [exact E1|].
    destruct hi as [h|]; [|exact I].
    destruct (h <? jslength s) eqn:E2; [discriminate|].
    now apply Z.ltb_ge in E2.
  - intros (s & -> & Hlo & Hhi). simpl.
    apply Z.ltb_ge in Hlo. rewrite Hlo. simpl.
    destruct hi as [h|]; [|reflexivity].
    apply Z.ltb_ge in Hhi. now rewrite Hhi.
Qed.

(** X1: [verifyBanknoteSchema] accepts exactly the objects whose three
    properties are strings with 2 to 3, at least 1, and 1 to 20 code units,
    and the parsed request carries those three strings unchanged. *)
Theorem verifyBanknoteSchema_accepts (body : JsValue) (rq : VerifyBanknoteRequest) :
  verifyBanknoteSchema_parse body = inr rq <->
  exists fields,
    body = JsObject fields
    /\ getField fields (js "countryCode") = JsStringV (countryCode rq)
    /\ getField fields (js "denomination") = JsStringV (denomination rq)
    /\ getField fields (js "serialNumber") = JsStringV (serialNumber rq)
    /\ 2 <= jslength (countryCode rq) <= 3
    /\ 1 <= jslength (denomination rq)
    /\ 1 <= jslength (serialNumber rq) <= 20.
Proof.
  split.
  - destruct body; simpl; try discriminate.
    match goal with |- context [match ?l with [] => _ | _ => _ end] =>
      destruct l as [|i issues] eqn:E end; [|discriminate].
    intros H. injection H as <-.
    apply app_eq_nil in E as [E1 E]. apply app_eq_nil in E as [E2 E3].
    apply zString_passes in E1 as (cc & Hcc & L1 & U1).
    apply zString_passes in E2 as (dn & Hdn & L2 & _).
    apply zString_passes in E3 as (sn & Hsn & L3 & U3).
    exists fields. rewrite Hcc, Hdn, Hsn. simpl. repeat split; assumption.
  - intros (fields & -> & Hcc & Hdn & Hsn & [L1 U1] & L2 & [L3 U3]).
    destruct rq as [cc dn sn]. simpl in *.
    unfold verifyBanknoteSchema_parse. rewrite Hcc, Hdn, Hsn.
    rewrite (proj2 (zString_passes 2 (Some 3) _ (JsStringV cc)))
      by (exists cc; auto).
    rewrite (proj2 (zString_passes 1 None _ (JsStringV dn)))
      by (exists dn; auto).
    rewrite (proj2 (zString_passes 1 (Some 20) _ (JsStringV sn)))
      by (exists sn; auto).
    reflexivity.
Qed.

(** ** Every path through the verify handler *)

Section RoutesMore.

Variable newRegExp : jsstring -> option (jsstring -> bool).

(** X2: a valid request for a stored country without the requested face
    value is answered 404 "Denomination not found" after the two lookups;
    the store is as it was. *)
Theorem unknown_denomination_404 (body : JsValue) (w : World)
    (rq : VerifyBanknoteRequest) (c : Country.t) :
  verifyBanknoteSchema_parse body = inr rq ->
  fst (getCountryByCode (countryCode rq) w) = Return (Some c) ->
  fst (getDenomination (Country.id c) (denomination rq) w) = Return None ->
  exists w',
    postVerify newRegExp body w = (NotFound (js "Denomination not found"), w')
    /\ db w' = db w
    /\ queries w' = queries w ++ [ SelectCountryByCode (countryCode rq);
                                  SelectDenomination (Country.id c) (denomination rq) ].
Proof.
  intros Hp Hc Hd. destruct rq as [cc dn sn]. simpl in *.
  unfold getCountryByCode in Hc. unfold getDenomination in Hd. simpl in *.
  injection Hc as Hc. injection Hd as Hd.
  unfold postVerify, verifyBody. rewrite Hp.
  unfold bind, getCountryByCode. rewrite Hc.
  unfold getDenomination. simpl. rewrite Hd.
  eexists. split; [reflexivity|]. simpl. rewrite <- app_assoc. auto.
Qed.

(** X3: when the constructor rejects the pattern of the rule, the request is
    answered 500 "Verification failed"; both lookups have run, no log row
    is written and the store is as it was. *)
Theorem rejected_pattern_500 (body : JsValue) (w : World)
    (rq : VerifyBanknoteRequest) (c : Country.t) (d : Denomination.t) :
  verifyBanknoteSchema_parse body = inr rq ->
  fst (getCountryByCode (countryCode rq) w) = Return (Some c) ->
  fst (getDenomination (Country.id c) (denomination rq) w) = Return (Some d) ->
  newRegExp (Denomination.serialFormat d) = None ->
  exists w',
    postVerify newRegExp body w = (ServerError (js "Verification failed"), w')
    /\ db w' = db w
    /\ queries w' = queries w ++ [ SelectCountryByCode (countryCode rq);
                                  SelectDenomination (Country.id c) (denomination rq) ].
Proof.
  intros Hp Hc Hd Hr. destruct rq as [cc dn sn]. simpl in *.
  unfold getCountryByCode in Hc. unfold getDenomination in Hd. simpl in *.
  injection Hc as Hc. injection Hd as Hd.
  unfold postVerify, verifyBody. rewrite Hp.
  unfold bind, getCountryByCode. rewrite Hc.
  unfold getDenomination. simpl. rewrite Hd, Hr.
  eexists. split; [reflexivity|]. simpl. rewrite <- app_assoc. auto.
Qed.

(** X4: which answers the handler gives when.  It answers 400 exactly when
    validation fails and 404 exactly when a lookup finds no row; a pattern
    that the constructor rejects is answered 500; and a 200 is only ever
    sent when validation, both lookups and the construction of the pattern
    have succeeded. *)
Theorem postVerify_status (body : JsValue) (w : World) :
  let r := fst (postVerify newRegExp body w) in
  (status r = 400 <-> exists issues, verifyBanknoteSchema_parse body = inl issues)
  /\ (status r = 404 <->
      exists rq,
        verifyBanknoteSchema_parse body = inr rq
        /\ (fst (getCountryByCode (countryCode rq) w) = Return None
            \/ exists c,
                 fst (getCountryByCode (countryCode rq) w) = Return (Some c)
                 /\ fst (getDenomination (Country.id c) (denomination rq) w)
                    = Return None))
  /\ ((exists rq c d,
         verifyBanknoteSchema_parse body = inr rq
         /\ fst (getCountryByCode (countryCode rq) w) = Return (Some c)
         /\ fst (getDenomination (Country.id c) (denomination rq) w) = Return (Some d)
         /\ newRegExp (Denomination.serialFormat d) = None) ->
      status r = 500)
  /\ (status r = 200 -> exists rq c d rx, reachesCheck newRegExp body w rq c d rx).
Proof.
  unfold postVerify, verifyBody, reachesCheck.
  destruct (verifyBanknoteSchema_parse body) as [issues|[cc dn sn]] eqn:Hp.
  { simpl. repeat split; try discriminate; eauto;
      try (intros (? & ? & ?); discriminate);
      try (intros (? & ? & ? & ? & ?); discriminate). }
  unfold bind, getCountryByCode, getDenomination. simpl.
  destruct (find _ (countries (db w))) as [c|] eqn:Hc; simpl.
  2:{ repeat split; try discriminate.
      - intros (? & ?); discriminate.
      - intros _. exists (mkRequest cc dn sn). simpl. rewrite Hc. auto.
      - intros (rq & c & d & E & Hc' & _). injection E as <-. simpl in Hc'.
        rewrite Hc in Hc'. discriminate. }
  destruct (find _ (denominations (db w))) as [d|] eqn:Hd; simpl.
  2:{ repeat split; try discriminate.
      - intros (? & ?); discriminate.
      - intros _. exists (mkRequest cc dn sn). simpl. rewrite Hc.
        split; [reflexivity|]. right. exists c. rewrite Hd. auto.
      - intros (rq & c' & d & E & Hc' & Hd' & _). injection E as <-.
        simpl in Hc', Hd'. rewrite Hc in Hc'. injection Hc' as <-.
        rewrite Hd in Hd'. discriminate. }
  destruct (newRegExp (Denomination.serialFormat d)) as [rx|] eqn:Hr; simpl.
  - repeat split; try discriminate.
    + intros (? & ?); discriminate.
    + intros (rq & E & [Hc'|(c' & Hc' & Hd')]); injection E as <-;
        simpl in *; rewrite Hc in Hc'; try discriminate.
      injection Hc' as <-. rewrite Hd in Hd'. discriminate.
    + intros (rq & c' & d' & E & Hc' & Hd' & Hr'). injection E as <-.
      simpl in Hc', Hd'. rewrite Hc in Hc'. injection Hc' as <-.
      rewrite Hd in Hd'. injection Hd' as <-. rewrite Hr in Hr'. discriminate.
    + intros _. exists (mkRequest cc dn sn), c, d, rx. simpl.
      rewrite Hc, Hd. auto.
  - repeat split; try discriminate.
    + intros (? & ?); discriminate.
    + intros (rq & E & [Hc'|(c' & Hc' & Hd')]); injection E as <-;
        simpl in *; rewrite Hc in Hc'; try discriminate.
      injection Hc' as <-. rewrite Hd in Hd'. discriminate.
Qed.

End RoutesMore.

Lemma unknown_denomination_404_witness :
  exists w',
    postVerify RegExp.new (verifyRequest (js "UK") (js "7") (js "AB12 345678"))
      seededWorld
    = (NotFound (js "Denomination not found"), w')
    /\ db w' = db seededWorld
    /\ queries w' = queries seededWorld
                    ++ [ SelectCountryByCode (js "UK");
                         SelectDenomination 2 (js "7") ].
Proof.
  apply (unknown_denomination_404 RegExp.new
           (verifyRequest (js "UK") (js "7") (js "AB12 345678")) seededWorld
           (mkRequest (js "UK") (js "7") (js "AB12 345678"))
           (Country.mk 2 (js "UK") (js "United Kingdom") (js "GBP") pound)).
  - vm_compute. reflexivity.
  - vm_compute. reflexivity.
  - vm_compute. reflexivity.
Defined.

Lemma rejected_pattern_500_witness :
  exists w',
    postVerify RegExp.new (verifyRequest (js "XX") (js "1") (js "ABCDEFG"))
      brokenWorld
    = (ServerError (js "Verification failed"), w')
    /\ db w' = db brokenWorld
    /\ queries w' = queries brokenWorld
                    ++ [ SelectCountryByCode (js "XX");
                         SelectDenomination 1 (js "1") ].
Proof.
  apply (rejected_pattern_500 RegExp.new
           (verifyRequest (js "XX") (js "1") (js "ABCDEFG")) brokenWorld
           (mkRequest (js "XX") (js "1") (js "ABCDEFG"))
           (Country.mk 1 (js "XX") (js "Example") (js "XXX") (js "X"))
           (Denomination.mk 1 1 (js "1") (js "X1") (js "[A-Z") 7 (js "Letters") true)).
  - vm_compute. reflexivity.
  - vm_compute. reflexivity.
  - vm_compute. reflexivity.
  - vm_compute. reflexivity.
Defined.

Section RoutesFrame.

Variable newRegExp : jsstring -> option (jsstring -> bool).

(** X5: whatever the request, the handler leaves the countries, the rules
    and their id sequences alone.  It appends exactly one log row, taking
    the next log id, when it answers 200, and otherwise leaves the whole
    store as it was. *)
Theorem postVerify_frame (body : JsValue) (w : World) :
  let r := fst (postVerify newRegExp body w) in
  let w' := snd (postVerify newRegExp body w) in
  countries (db w') = countries (db w)
  /\ denominations (db w') = denominations (db w)
  /\ countries_id_seq (db w') = countries_id_seq (db w)
  /\ denominations_id_seq (db w') = denominations_id_seq (db w)
  /\ clock w' = clock w
  /\ ((status r = 200
       /\ exists log,
            verificationLogs (db w') = verificationLogs (db w) ++ [log]
            /\ VerificationLog.id log = verification_logs_id_seq (db w)
            /\ verification_logs_id_seq (db w') = verification_logs_id_seq (db w) + 1)
      \/ (status r <> 200 /\ db w' = db w)).
Proof.
  unfold postVerify, verifyBody.
  destruct (verifyBanknoteSchema_parse body) as [issues|[cc dn sn]].
  { simpl. repeat split. right. split; [discriminate | reflexivity]. }
  unfold bind, getCountryByCode, getDenomination. simpl.
  destruct (find _ (countries (db w))) as [c|]; simpl.
  2:{ repeat split. right. split; [discriminate | reflexivity]. }
  destruct (find _ (denominations (db w))) as [d|]; simpl.
  2:{ repeat split. right. split; [discriminate | reflexivity]. }
  destruct (newRegExp (Denomination.serialFormat d)) as [rx|]; simpl.
  - repeat split. left. split; [reflexivity|]. eexists. repeat split.
  - repeat split. right. split; [discriminate | reflexivity].
Qed.

(** X6: a verification that is answered 200 has been recorded against what
    was looked up: one row was appended to the log, and it names the stored
    country with the requested code and a stored rule of that country with
    the requested face value.  The answer echoes the serial number as sent
    and describes that country and rule.  Exactly three statements were
    sent: the two lookups, then the insert with the flags of the answer. *)
Theorem verification_is_recorded (body : JsValue) (w : World)
    (r : VerifyResponse.t) (w' : World) :
  postVerify newRegExp body w = (Json r, w') ->
  exists rq c d log,
    verifyBanknoteSchema_parse body = inr rq
    /\ verificationLogs (db w') = verificationLogs (db w) ++ [log]
    /\ In c (countries (db w)) /\ Country.code c = countryCode rq
    /\ In d (denominations (db w))
    /\ Denomination.countryId d = Country.id c
    /\ Denomination.value d = denomination rq
    /\ VerificationLog.countryId log = Country.id c
    /\ VerificationLog.denominationId log = Denomination.id d
    /\ VerifyResponse.serialNumber r = serialNumber rq
    /\ VerifyResponse.country r = Country.name c
    /\ VerifyResponse.currency r = Country.currency c
    /\ VerifyResponse.denomination r = Denomination.displayName d
    /\ VerifyResponse.patternDescription r = Denomination.patternDescription d
    /\ queries w' =
       queries w
       ++ [ SelectCountryByCode (countryCode rq);
            SelectDenomination (Country.id c) (denomination rq);
            InsertIntoVerificationLogs
              (InsertVerificationLog.mk (Country.id c) (Denomination.id d)
                 (serialNumber rq) (VerifyResponse.isAuthentic r)
                 (VerifyResponse.formatValid r) (VerifyResponse.lengthValid r)) ].
Proof.
  intros E.
  destruct (postVerify_Json_inv newRegExp body w r w' E)
    as (rq & c & d & rx & (Hp & Hc & Hd & Hr)).
  exists rq, c, d. destruct rq as [cc dn sn]. simpl in *.
  unfold getCountryByCode in Hc. unfold getDenomination in Hd. simpl in *.
  injection Hc as Hc. injection Hd as Hd.
  pose proof (find_some _ _ Hc) as [Hcin Hceq].
  pose proof (find_some _ _ Hd) as [Hdin Hdeq].
  apply jsstring_eqb_eq in Hceq.
  apply andb_prop in Hdeq as [Hdc Hdv].
  apply Z.eqb_eq in Hdc. apply jsstring_eqb_eq in Hdv.
  unfold postVerify, verifyBody in E. rewrite Hp in E.
  unfold bind, getCountryByCode in E. rewrite Hc in E.
  unfold getDenomination in E. simpl in E. rewrite Hd, Hr in E. simpl in E.
  injection E as <- <-. eexists. simpl.
  rewrite <- !app_assoc. simpl. repeat split; auto.
Qed.

(** X7: a verification that is answered 200 moves the statistics by one:
    the total grows by 1, and either the authentic or the suspicious count
    grows by 1, according to the verdict sent. *)
Theorem stats_after_verification (body : JsValue) (w : World)
    (r : VerifyResponse.t) (w' : World) :
  postVerify newRegExp body w = (Json r, w') ->
  let before := statsOf (verificationLogs (db w)) in
  let after := statsOf (verificationLogs (db w')) in
  totalVerified after = totalVerified before + 1
  /\ authentic after
     = authentic before + (if VerifyResponse.isAuthentic r then 1 else 0)
  /\ suspicious after
     = suspicious before + (if VerifyResponse.isAuthentic r then 0 else 1).
Proof.
  intros E.
  destruct (postVerify_Json_inv newRegExp body w r w' E) as (rq & c & d & rx & H).
  destruct (postVerify_checked newRegExp body w rq c d rx H)
    as (w1 & E1 & Hlog & _).
  rewrite E in E1. injection E1 as -> <-.
  simpl. rewrite Hlog. rewrite filter_app, !length_app. simpl.
  destruct (rx (serialNumber rq) && _); simpl; lia.
Qed.

End RoutesFrame.

Lemma verification_is_recorded_witness :
  exists rq c d log,
    verifyBanknoteSchema_parse goodRequest = inr rq
    /\ verificationLogs
         (db (snd (postVerify RegExp.new goodRequest seededWorld)))
       = verificationLogs (db seededWorld) ++ [log]
    /\ In c (countries (db seededWorld)) /\ Country.code c = countryCode rq
    /\ In d (denominations (db seededWorld))
    /\ Denomination.countryId d = Country.id c
    /\ Denomination.value d = denomination rq
    /\ VerificationLog.countryId log = Country.id c
    /\ VerificationLog.denominationId log = Denomination.id d
    /\ VerifyResponse.serialNumber goodResponse = serialNumber rq
    /\ VerifyResponse.country goodResponse = Country.name c
    /\ VerifyResponse.currency goodResponse = Country.currency c
    /\ VerifyResponse.denomination goodResponse = Denomination.displayName d
    /\ VerifyResponse.patternDescription goodResponse
       = Denomination.patternDescription d
    /\ queries (snd (postVerify RegExp.new goodRequest seededWorld)) =
       queries seededWorld
       ++ [ SelectCountryByCode (countryCode rq);
            SelectDenomination (Country.id c) (denomination rq);
            InsertIntoVerificationLogs
              (InsertVerificationLog.mk (Country.id c) (Denomination.id d)
                 (serialNumber rq) (VerifyResponse.isAuthentic goodResponse)
                 (VerifyResponse.formatValid goodResponse)
                 (VerifyResponse.lengthValid goodResponse)) ].
Proof.
  apply (verification_is_recorded RegExp.new goodRequest seededWorld
           goodResponse (snd (postVerify RegExp.new goodRequest seededWorld))).
  vm_compute. reflexivity.
Defined.

Lemma stats_after_verification_witness :
  totalVerified
    (statsOf (verificationLogs
                (db (snd (postVerify RegExp.new goodRequest seededWorld)))))
  = totalVerified (statsOf (verificationLogs (db seededWorld))) + 1
  /\ authentic
       (statsOf (verificationLogs
                   (db (snd (postVerify RegExp.new goodRequest seededWorld)))))
     = authentic (statsOf (verificationLogs (db seededWorld))) + 1
  /\ suspicious
       (statsOf (verificationLogs
                   (db (snd (postVerify RegExp.new goodRequest seededWorld)))))
     = suspicious (statsOf (verificationLogs (db seededWorld))) + 0.
Proof.
  apply (stats_after_verification RegExp.new goodRequest seededWorld
           (VerifyResponse.mk (js "United States") (js "USD") (js "$1")
              (js "B12345678C") true true true
              (js "Letter + 8 digits + Letter") 1700000000000)
           (snd (postVerify RegExp.new goodRequest seededWorld))).
  vm_compute. reflexivity.
Defined.

(** ** The storage methods *)

(** X9: country codes stay unique.  If no two stored countries share a
    code, none do after [createCountry], whether it returns or throws; and
    a row whose code is already stored is refused: the call throws and the
    three tables are as they were. *)
Theorem createCountry_keeps_codes_unique (r : InsertCountry.t) (w : World) :
  NoDup (map Country.code (countries (db w))) ->
  NoDup (map Country.code (countries (db (snd (createCountry r w)))))
  /\ (In (InsertCountry.code r) (map Country.code (countries (db w))) ->
      fst (createCountry r w) = Throw DbError
      /\ countries (db (snd (createCountry r w))) = countries (db w)
      /\ denominations (db (snd (createCountry r w))) = denominations (db w)
      /\ verificationLogs (db (snd (createCountry r w))) = verificationLogs (db w)).
Proof.
  intros Hnd. unfold createCountry.
  destruct (countryRowOk (db w) r) eqn:Hok; simpl.
  - unfold countryRowOk in Hok.
    apply andb_prop in Hok as [Hok _]. apply andb_prop in Hok as [Hok _].
    apply andb_prop in Hok as [Hok _]. apply negb_true_iff in Hok.
    assert (Hnew : ~ In (InsertCountry.code r) (map Country.code (countries (db w)))).
    { intros Hin. apply in_map_iff in Hin as (c & Hc & Hin).
      assert (existsb (fun c => jsstring_eqb (Country.code c) (InsertCountry.code r))
                (countries (db w)) = true) as Hex.
      { apply existsb_exists. exists c. split; [exact Hin|].
        now apply jsstring_eqb_eq. }
      congruence. }
    split; [|tauto].
    rewrite map_app. simpl. apply NoDup_app.
    + exact Hnd.
    + apply NoDup_cons; [intros [] | apply NoDup_nil].
    + intros a Ha [<-|[]]. auto.
  - split; [exact Hnd|]. auto.
Qed.

Lemma createCountry_keeps_codes_unique_witness :
  NoDup (map Country.code (countries (db (snd (createCountry (countryRow (js "US") (js "Again") (js "USD") (js "$")) seededWorld)))))
  /\ (In (js "US") (map Country.code (countries (db seededWorld))) ->
      fst (createCountry (countryRow (js "US") (js "Again") (js "USD") (js "$")) seededWorld) = Throw DbError
      /\ countries (db (snd (createCountry (countryRow (js "US") (js "Again") (js "USD") (js "$")) seededWorld)))
         = countries (db seededWorld)
      /\ denominations (db (snd (createCountry (countryRow (js "US") (js "Again") (js "USD") (js "$")) seededWorld)))
         = denominations (db seededWorld)
      /\ verificationLogs (db (snd (createCountry (countryRow (js "US") (js "Again") (js "USD") (js "$")) seededWorld)))
         = verificationLogs (db seededWorld)).
Proof.
  apply (createCountry_keeps_codes_unique
           (countryRow (js "US") (js "Again") (js "USD") (js "$")) seededWorld).
  vm_compute.
  repeat (constructor; [simpl; intuition discriminate|]). constructor.
Defined.

(** ** The read-only routes *)

(** X11: [GET /api/countries/:countryCode/denominations] answers 404
    "Country not found" for a code that no stored country has; for a stored
    code it sends exactly the stored rules whose [countryId] is that
    country's id, in stored order.  Either way the store is untouched. *)
Theorem getDenominationsRoute_answers (countryCode : jsstring) (w : World) :
  db (snd (getDenominationsRoute countryCode w)) = db w
  /\ (fst (getCountryByCode countryCode w) = Return None ->
      fst (getDenominationsRoute countryCode w)
      = Failed 404 (js "Country not found"))
  /\ (forall c,
        fst (getCountryByCode countryCode w) = Return (Some c) ->
        exists ds,
          fst (getDenominationsRoute countryCode w) = Sent ds
          /\ ds = filter (fun d => Denomination.countryId d =? Country.id c)
                    (denominations (db w))
          /\ Country.code c = countryCode
          /\ forall d, In d ds <->
                       In d (denominations (db w))
                       /\ Denomination.countryId d = Country.id c).
Proof.
  unfold getDenominationsRoute, getDenominationsBody, bind, getCountryByCode,
    getDenominationsByCountry. simpl.
  destruct (find _ (countries (db w))) as [c|] eqn:Hc; simpl.
  - split; [reflexivity|]. split; [discriminate|].
    intros c' E. injection E as <-.
    eexists. split; [reflexivity|]. split; [reflexivity|].
    apply find_some in Hc as [_ Hc]. apply jsstring_eqb_eq in Hc.
    split; [exact Hc|].
    intros d. rewrite filter_In, Z.eqb_eq. reflexivity.
  - split; [reflexivity|]. split; [reflexivity|]. discriminate.
Qed.

(** X12: [GET /api/stats] never fails and never changes the store; the
    counts it sends are those of the log: the total is the number of rows,
    [authentic] the number of rows marked authentic, [suspicious] the
    number of the others, and the two add up to the total. *)
Theorem getStatsRoute_counts (w : World) :
  exists st,
    getStatsRoute w = (Sent st, send SelectVerificationLogs w)
    /\ totalVerified st = Z.of_nat (List.length (verificationLogs (db w)))
    /\ authentic st
       = Z.of_nat (List.length (filter VerificationLog.isAuthentic
                                  (verificationLogs (db w))))
    /\ suspicious st
       = Z.of_nat (List.length
                     (filter (fun l => negb (VerificationLog.isAuthentic l))
                        (verificationLogs (db w))))
    /\ authentic st + suspicious st = totalVerified st
    /\ 0 <= authentic st <= totalVerified st.
Proof.
  unfold getStatsRoute, getVerificationStats. eexists.
  split; [reflexivity|]. simpl.
  pose proof (filter_length_split VerificationLog.isAuthentic
                (verificationLogs (db w))).
  repeat split; lia.
Qed.

(** ** What a running server keeps true *)

Lemma storeGrows_refl (s : Store) : storeGrows s s.
Proof.
  repeat split; exists []; now rewrite app_nil_r.
Qed.

Lemma storeGrows_trans (s1 s2 s3 : Store) :
  storeGrows s1 s2 -> storeGrows s2 s3 -> storeGrows s1 s3.
Proof.
  intros (L1 & Q1 & [c1 C1] & [d1 D1]) (L2 & Q2 & [c2 C2] & [d2 D2]).
  repeat split; try congruence.
  - exists (c1 ++ c2). now rewrite C2, C1, app_assoc.
  - exists (d1 ++ d2). now rewrite D2, D1, app_assoc.
Qed.

Lemma createCountry_grows (r : InsertCountry.t) (w : World) :
  storeGrows (db w) (db (snd (createCountry r w))).
Proof.
  unfold createCountry. destruct (countryRowOk (db w) r); simpl.
  - repeat split; [eexists; reflexivity | exists []; now rewrite app_nil_r].
  - repeat split; exists []; now rewrite app_nil_r.
Qed.

Lemma createDenomination_grows (r : InsertDenomination.t) (w : World) :
  storeGrows (db w) (db (snd (createDenomination r w))).
Proof.
  unfold createDenomination. simpl.
  repeat split; [exists []; now rewrite app_nil_r | eexists; reflexivity].
Qed.

Lemma Promise_all_grows {A} (actions : list (Async A)) :
  (forall m, In m actions -> forall w, storeGrows (db w) (db (snd (m w)))) ->
  forall w, storeGrows (db w) (db (snd (Promise_all actions w))).
Proof.
  induction actions as [|m rest IH]; intros Hall w.
  - apply storeGrows_refl.
  - rewrite Promise_all_cons.
    pose proof (Hall m (or_introl eq_refl) w) as Hm.
    assert (Hrest : forall w1, storeGrows (db w1) (db (snd (Promise_all rest w1)))).
    { apply IH. intros m' Hin. apply Hall. now right. }
    destruct (m w) as [[a|e] w1]; simpl in Hm.
    + specialize (Hrest w1).
      destruct (Promise_all rest w1) as [[l|e] w2]; simpl in *;
        eapply storeGrows_trans; eauto.
    + simpl. eapply storeGrows_trans; eauto.
Qed.

(** Seeding only ever adds countries and rules after the stored ones, on
    every path through it. *)
Lemma seedInitialData_grows (w : World) :
  storeGrows (db w) (db (snd (seedInitialData w))).
Proof.
  unfold seedInitialData, bind, getCountries.
  destruct (0 <? Z.of_nat (List.length (countries (db w)))).
  { apply storeGrows_refl. }
  pose proof (Promise_all_grows (map createCountry countryData)) as Hc.
  specialize (Hc (fun m Hin =>
    match proj1 (in_map_iff _ _ _) Hin with
    | ex_intro _ r (conj E _) =>
        fun w => eq_ind _ (fun m => storeGrows (db w) (db (snd (m w))))
                   (createCountry_grows r w) _ E
    end) (send SelectCountries w)).
  destruct (Promise_all (map createCountry countryData) _) as [[created|e] w1];
    simpl in Hc; [|exact Hc].
  destruct (denominationData created) as [data|e]; [|exact Hc].
  pose proof (Promise_all_grows (map createDenomination data)) as Hd.
  specialize (Hd (fun m Hin =>
    match proj1 (in_map_iff _ _ _) Hin with
    | ex_intro _ r (conj E _) =>
        fun w => eq_ind _ (fun m => storeGrows (db w) (db (snd (m w))))
                   (createDenomination_grows r w) _ E
    end) w1).
  destruct (Promise_all (map createDenomination data) w1) as [[rows|e] w2];
    simpl in *; eapply storeGrows_trans; eauto.
Qed.

Lemma logSound_grows (s s' : Store) (l : VerificationLog.t) :
  storeGrows s s' -> logSound s l -> logSound s' l.
Proof.
  intros (_ & Q & [cs C] & [ds D]) (Hf & (c & d & Hc & Hd & Hrest) & Hid).
  split; [exact Hf|]. split.
  - exists c, d. rewrite C, D. split; [apply in_or_app; auto|].
    split; [apply in_or_app; auto | exact Hrest].
  - now rewrite Q.
Qed.

Lemma storeSound_grows (s s' : Store) :
  storeGrows s s' -> storeSound s -> storeSound s'.
Proof.
  intros G [Hall Hnd]. pose proof G as (L & _).
  unfold storeSound. rewrite L. split; [|exact Hnd].
  eapply Forall_impl; [|exact Hall]. intros l. now apply logSound_grows.
Qed.

Section ServerFacts.

Variable newRegExp : jsstring -> option (jsstring -> bool).

(** The store after the verify handler, on each of its paths. *)
Lemma postVerify_store (body : JsValue) (w : World) :
  (exists b, fst (postVerify newRegExp body w) = Json b)
  /\ (exists rq c d rx,
        reachesCheck newRegExp body w rq c d rx
        /\ db (snd (postVerify newRegExp body w))
           = mkStore (countries (db w)) (denominations (db w))
               (verificationLogs (db w)
                ++ [VerificationLog.mk (verification_logs_id_seq (db w))
                      (Country.id c) (Denomination.id d) (serialNumber rq)
                      (rx (serialNumber rq)
                       && (jslength (serialNumber rq) =? Denomination.serialLength d))
                      (rx (serialNumber rq))
                      (jslength (serialNumber rq) =? Denomination.serialLength d)
                      (clock w)])
               (countries_id_seq (db w)) (denominations_id_seq (db w))
               (verification_logs_id_seq (db w) + 1))
  \/ (forall b, fst (postVerify newRegExp body w) <> Json b)
     /\ db (snd (postVerify newRegExp body w)) = db w.
Proof.
  unfold postVerify, verifyBody, reachesCheck.
  destruct (verifyBanknoteSchema_parse body) as [issues|[cc dn sn]].
  { right. simpl. split; [discriminate | reflexivity]. }
  unfold bind, getCountryByCode, getDenomination. simpl.
  destruct (find _ (countries (db w))) as [c|] eqn:Hc; simpl.
  2:{ right. split; [discriminate | reflexivity]. }
  destruct (find _ (denominations (db w))) as [d|] eqn:Hd; simpl.
  2:{ right. split; [discriminate | reflexivity]. }
  destruct (newRegExp (Denomination.serialFormat d)) as [rx|] eqn:Hr; simpl.
  - left. split; [eexists; reflexivity|].
    exists (mkRequest cc dn sn), c, d, rx. simpl. rewrite Hc, Hd. auto.
  - right. split; [discriminate | reflexivity].
Qed.

Lemma postVerify_sound (body : JsValue) (w : World) :
  storeSound (db w) -> storeSound (db (snd (postVerify newRegExp body w))).
Proof.
  intros [Hall Hnd].
  destruct (postVerify_store body w)
    as [[_ (rq & c & d & rx & (Hp & Hc & Hd & Hr) & ->)] | [_ ->]];
    [|now split].
  unfold getCountryByCode in Hc. unfold getDenomination in Hd. simpl in Hc, Hd.
  injection Hc as Hc. injection Hd as Hd.
  apply find_some in Hc as [Hcin _]. apply find_some in Hd as [Hdin Hdeq].
  apply andb_prop in Hdeq as [Hdc _]. apply Z.eqb_eq in Hdc.
  split; simpl.
  - apply Forall_app. split.
    + eapply Forall_impl; [|exact Hall].
      intros l (Hf & Href & Hid). split; [exact Hf|]. split; [exact Href|].
      simpl. lia.
    + constructor; [|constructor]. split; [reflexivity|]. split.
      * exists c, d. simpl. auto.
      * simpl. lia.
  - rewrite map_app. simpl. apply NoDup_app.
    + exact Hnd.
    + apply NoDup_cons; [intros [] | apply NoDup_nil].
    + intros a Ha [<-|[]].
      apply in_map_iff in Ha as (l & Hl & Hin).
      rewrite Forall_forall in Hall. destruct (Hall l Hin) as (_ & _ & Hid).
      lia.
Qed.

Lemma route_store (rq : Request) (w : World) :
  storeSound (db w) -> storeSound (db (snd (route newRegExp rq w))).
Proof.
  intros H. destruct rq as [|code|body|]; simpl.
  - exact H.
  - unfold getDenominationsRoute, getDenominationsBody, bind, getCountryByCode.
    simpl. destruct (find _ (countries (db w))); exact H.
  - pose proof (postVerify_sound body w H) as H'.
    destruct (postVerify newRegExp body w). exact H'.
  - exact H.
Qed.

Lemma serve_sound (requests : list Request) :
  forall w,
    storeSound (db w) ->
    storeSound (db (snd (serve (route newRegExp) requests w))).
Proof.
  induction requests as [|rq rest IH]; intros w H; simpl; [exact H|].
  pose proof (route_store rq w H) as H1.
  destruct (route newRegExp rq w) as [a w1]. simpl in H1.
  specialize (IH w1 H1).
  destruct (serve (route newRegExp) rest w1). exact IH.
Qed.

(** X13: a server started by [registerRoutes] on a sound store keeps it
    sound through any sequence of requests: every log row has
    [isAuthentic = formatValid && lengthValid], names a stored country and a
    stored rule of that country, and no two log rows share an id. *)
Theorem server_keeps_store_sound (w w1 : World)
    (server : Request -> World -> Answer * World) (requests : list Request) :
  storeSound (db w) ->
  registerRoutes newRegExp w = (Return server, w1) ->
  storeSound (db w1) /\ storeSound (db (snd (serve server requests w1))).
Proof.
  intros H E. unfold registerRoutes, bind in E.
  pose proof (seedInitialData_grows w) as G.
  destruct (seedInitialData w) as [[[]|e] w1']; [|discriminate].
  unfold ret in E. injection E as <- <-. simpl in G.
  pose proof (storeSound_grows _ _ G H) as H1.
  split; [exact H1 | now apply serve_sound].
Qed.

End ServerFacts.

Lemma server_keeps_store_sound_witness :
  storeSound (db seededWorld)
  /\ storeSound
       (db (snd (serve (route RegExp.new)
                   [ POST_verify goodRequest; GET_stats; POST_verify badRequest;
                     GET_denominations (js "UK"); POST_verify looseRequest ]
                   seededWorld))).
Proof.
  apply (server_keeps_store_sound RegExp.new freshWorld seededWorld
           (route RegExp.new)).
  - split; [apply Forall_nil | apply NoDup_nil].
  - unfold registerRoutes, bind. rewrite seededWorld_eq. reflexivity.
Defined.

Section ServeFrame.

Variable newRegExp : jsstring -> option (jsstring -> bool).

(** X14: serving requests never touches the countries or the rules, and
    never removes or rewrites a log row: the log after any sequence of
    requests is the log before followed by one new row for each
    verification that was answered 200, and by nothing else. *)
Theorem serve_appends_to_log (requests : list Request) (w : World) :
  let answers := fst (serve (route newRegExp) requests w) in
  let w' := snd (serve (route newRegExp) requests w) in
  List.length answers = List.length requests
  /\ countries (db w') = countries (db w)
  /\ denominations (db w') = denominations (db w)
  /\ exists new,
       verificationLogs (db w') = verificationLogs (db w) ++ new
       /\ List.length new = accepted answers.
Proof.
  revert w. induction requests as [|rq rest IH]; intros w; simpl.
  - repeat split. exists []. now rewrite app_nil_r.
  - destruct (route newRegExp rq w) as [a w1] eqn:E1.
    specialize (IH w1).
    destruct (serve (route newRegExp) rest w1) as [answers w2]. simpl in *.
    destruct IH as (Hlen & Hcs & Hds & new & Hlog & Hnew).
    assert (H1 : countries (db w1) = countries (db w)
                 /\ denominations (db w1) = denominations (db w)
                 /\ exists n1,
                      verificationLogs (db w1) = verificationLogs (db w) ++ n1
                      /\ List.length n1 = accepted [a]).
    { destruct rq as [|code|body|]; simpl in E1.
      - injection E1 as <- <-. simpl. repeat split.
        exists []. now rewrite app_nil_r.
      - unfold getDenominationsRoute, getDenominationsBody, bind,
          getCountryByCode in E1. simpl in E1.
        destruct (find _ (countries (db w))); injection E1 as <- <-;
          simpl; repeat split; exists []; now rewrite app_nil_r.
      - destruct (postVerify_store newRegExp body w)
          as [[[b Hb] (rq' & c & d & rx & _ & Hdb)] | [Hno Hdb]];
          destruct (postVerify newRegExp body w) as [r w1'];
          injection E1 as <- <-; simpl in *.
        + rewrite Hdb, Hb. simpl. repeat split. eexists. split; reflexivity.
        + rewrite Hdb. repeat split. exists []. rewrite app_nil_r.
          split; [reflexivity|]. destruct r; try reflexivity.
          exfalso. eapply Hno. reflexivity.
      - injection E1 as <- <-. simpl. repeat split.
        exists []. now rewrite app_nil_r. }
    destruct H1 as (Hc1 & Hd1 & n1 & Hl1 & Hn1).
    split; [now rewrite Hlen|].
    split; [congruence|]. split; [congruence|].
    exists (n1 ++ new). split.
    + now rewrite Hlog, Hl1, app_assoc.
    + rewrite length_app, Hn1, Hnew. simpl.
      destruct a as [| |[]|]; reflexivity.
Qed.

End ServeFrame.

(** ** The seeded store in full *)

Lemma createCountries_rows (l : list InsertCountry.t) :
  forall w,
    countryRowsOk (map Country.code (countries (db w))) l = true ->
    Promise_all (map createCountry l) w
    = (Return (countriesFrom (countries_id_seq (db w)) l),
       mkWorld
         (mkStore (countries (db w) ++ countriesFrom (countries_id_seq (db w)) l)
            (denominations (db w)) (verificationLogs (db w))
            (countries_id_seq (db w) + Z.of_nat (List.length l))
            (denominations_id_seq (db w)) (verification_logs_id_seq (db w)))
         (queries w ++ map InsertIntoCountries l) (clock w)).
Proof.
  induction l as [|r rest IH]; intros w Hok.
  - destruct w as [[cs ds ls a b c] q t]. simpl.
    now rewrite !app_nil_r, Z.add_0_r.
  - simpl in Hok. apply andb_prop in Hok as [Hrow Hrest].
    assert (Hr : countryRowOk (db w) r = true).
    { unfold countryRowOk. rewrite existsb_map in Hrow. exact Hrow. }
    change (map createCountry (r :: rest))
      with (createCountry r :: map createCountry rest).
    rewrite Promise_all_cons. unfold createCountry at 1. rewrite Hr.
    rewrite IH.
    + simpl. rewrite <- !app_assoc. simpl.
      replace (countries_id_seq (db w) + 1 + Z.of_nat (List.length rest))
        with (countries_id_seq (db w) + Z.pos (Pos.of_succ_nat (List.length rest)))
        by lia.
      reflexivity.
    + simpl. rewrite map_app. exact Hrest.
Qed.

Lemma createDenominations_rows (l : list InsertDenomination.t) :
  forall w,
    Promise_all (map createDenomination l) w
    = (Return (denominationsFrom (denominations_id_seq (db w)) l),
       mkWorld
         (mkStore (countries (db w))
            (denominations (db w)
             ++ denominationsFrom (denominations_id_seq (db w)) l)
            (verificationLogs (db w)) (countries_id_seq (db w))
            (denominations_id_seq (db w) + Z.of_nat (List.length l))
            (verification_logs_id_seq (db w)))
         (queries w ++ map InsertIntoDenominations l) (clock w)).
Proof.
  induction l as [|r rest IH]; intros w.
  - destruct w as [[cs ds ls a b c] q t]. simpl.
    now rewrite !app_nil_r, Z.add_0_r.
  - change (map createDenomination (r :: rest))
      with (createDenomination r :: map createDenomination rest).
    rewrite Promise_all_cons. unfold createDenomination at 1.
    rewrite IH. simpl. rewrite <- !app_assoc. simpl.
    replace (denominations_id_seq (db w) + 1 + Z.of_nat (List.length rest))
      with (denominations_id_seq (db w) + Z.pos (Pos.of_succ_nat (List.length rest)))
      by lia.
    reflexivity.
Qed.

Lemma nth_error_countriesFrom (l : list InsertCountry.t) :
  forall next i,
    nth_error (countriesFrom next l) i
    = option_map
        (fun r => Country.mk (next + Z.of_nat i) (InsertCountry.code r)
                    (InsertCountry.name r) (InsertCountry.currency r)
                    (InsertCountry.currencySymbol r))
        (nth_error l i).
Proof.
  induction l as [|r rest IH]; intros next i.
  - destruct i; reflexivity.
  - destruct i as [|i]; simpl.
    + now rewrite Z.add_0_r.
    + rewrite IH. destruct (nth_error rest i); simpl; [|reflexivity].
      do 2 f_equal. lia.
Qed.

Lemma denominationData_seeded (l : list InsertCountry.t) (first : Z)
    (seeds : list DenominationSeed) :
  forallb (fun r => Nat.ltb (seedCountry r) (List.length l)) seeds = true ->
  traverse (denominationOf (countriesFrom first l)) seeds
  = Return (map (seededInsert first) seeds).
Proof.
  induction seeds as [|r rest IH]; simpl; intros H; [reflexivity|].
  apply andb_prop in H as [Hr Hrest]. rewrite (IH Hrest).
  unfold denominationOf at 1. rewrite nth_error_countriesFrom.
  apply Nat.ltb_lt in Hr. apply nth_error_Some in Hr.
  destruct (nth_error l (seedCountry r)); [reflexivity | congruence].
Qed.

Section SeedResult.

Variable w : World.
Hypothesis fresh : countries (db w) = [].

Lemma seedInitialData_closed_form :
  seedInitialData w
  = (Return tt,
     mkWorld (seededStore (db w))
       (queries w
        ++ SelectCountries
           :: map InsertIntoCountries countryData
           ++ map InsertIntoDenominations
                (map (seededInsert (countries_id_seq (db w))) denominationSeeds))
       (clock w)).
Proof.
  unfold seedInitialData, bind, getCountries. rewrite fresh.
  change (0 <? Z.of_nat (List.length (@nil Country.t))) with false.
  cbv beta iota.
  rewrite createCountries_rows
    by (simpl db; rewrite fresh; vm_compute; reflexivity).
  unfold denominationData.
  change (db (send SelectCountries w)) with (db w).
  rewrite (denominationData_seeded countryData) by (vm_compute; reflexivity).
  cbv beta iota. rewrite createDenominations_rows.
  unfold ret, seededStore, send.
  cbn [db queries clock countries denominations verificationLogs
       countries_id_seq denominations_id_seq verification_logs_id_seq].
  rewrite fresh, !length_map.
  change (Z.of_nat (List.length countryData)) with 25.
  change (Z.of_nat (List.length denominationSeeds)) with 49.
  cbn [app]. rewrite <- !app_assoc. reflexivity.
Qed.

End SeedResult.

(** X15: on a store without countries, [seedInitialData] returns normally
    and leaves exactly this: the 25 countries under consecutive ids, in the
    order of the table; the 49 rules under consecutive ids after the rules
    already stored, each under the id of its country; the log untouched.
    It has sent the select, then the 25 country inserts, then the 49 rule
    inserts. *)
Theorem seedInitialData_result (w : World) :
  countries (db w) = [] ->
  seedInitialData w
  = (Return tt,
     mkWorld (seededStore (db w))
       (queries w
        ++ SelectCountries
           :: map InsertIntoCountries countryData
           ++ map InsertIntoDenominations
                (map (seededInsert (countries_id_seq (db w))) denominationSeeds))
       (clock w)).
Proof. apply seedInitialData_closed_form. Qed.

Lemma seedInitialData_result_witness :
  seedInitialData freshWorld
  = (Return tt,
     mkWorld (seededStore (db freshWorld))
       (queries freshWorld
        ++ SelectCountries
           :: map InsertIntoCountries countryData
           ++ map InsertIntoDenominations
                (map (seededInsert (countries_id_seq (db freshWorld)))
                   denominationSeeds))
       (clock freshWorld)).
Proof.
  apply (seedInitialData_result freshWorld). reflexivity.
Defined.

(** ** Looking up what the seed stored *)

Lemma countryData_codes_unique : NoDup (map InsertCountry.code countryData).
Proof.
  vm_compute.
  repeat (constructor; [simpl; intuition discriminate|]). constructor.
Qed.

Lemma find_countriesFrom (l : list InsertCountry.t) :
  forall next i r,
    NoDup (map InsertCountry.code l) ->
    nth_error l i = Some r ->
    find (fun c => jsstring_eqb (Country.code c) (InsertCountry.code r))
      (countriesFrom next l)
    = Some (Country.mk (next + Z.of_nat i) (InsertCountry.code r)
              (InsertCountry.name r) (InsertCountry.currency r)
              (InsertCountry.currencySymbol r)).
Proof.
  induction l as [|r0 rest IH]; intros next i r Hnd Hi.
  - destruct i; discriminate.
  - simpl in Hnd. inversion Hnd as [|? ? Hnotin Hnd']; subst.
    destruct i as [|i]; simpl in Hi.
    + injection Hi as ->. simpl. rewrite jsstring_eqb_refl, Z.add_0_r.
      reflexivity.
    + simpl.
      destruct (jsstring_eqb (InsertCountry.code r0) (InsertCountry.code r)) eqn:E.
      * exfalso. apply jsstring_eqb_eq in E. apply Hnotin. rewrite E.
        apply in_map. eapply nth_error_In; eauto.
      * rewrite (IH (next + 1) i r Hnd' Hi). do 2 f_equal. lia.
Qed.

Lemma find_seeded_rule (first : Z) (seeds : list DenominationSeed) :
  forall next k r,
    seedKeysDistinct seeds = true ->
    nth_error seeds k = Some r ->
    find (fun d => (Denomination.countryId d =? first + Z.of_nat (seedCountry r))
                   && jsstring_eqb (Denomination.value d) (seedValue r))
      (denominationsFrom next (map (seededInsert first) seeds))
    = Some (Denomination.mk (next + Z.of_nat k)
              (first + Z.of_nat (seedCountry r)) (seedValue r)
              (seedDisplayName r) (seedSerialFormat r) (seedSerialLength r)
              (seedPatternDescription r) true).
Proof.
  induction seeds as [|r0 rest IH]; intros next k r Hd Hk.
  - destruct k; discriminate.
  - simpl in Hd. apply andb_prop in Hd as [Hhead Hrest].
    destruct k as [|k]; simpl in Hk.
    + injection Hk as ->. simpl.
      rewrite Z.eqb_refl, jsstring_eqb_refl, Z.add_0_r. reflexivity.
    + simpl.
      assert (Hne : seedKeyEqb r0 r = false).
      { rewrite forallb_forall in Hhead.
        apply negb_true_iff, Hhead. eapply nth_error_In; eauto. }
      unfold seedKeyEqb in Hne.
      replace (first + Z.of_nat (seedCountry r0) =? first + Z.of_nat (seedCountry r))
        with (Nat.eqb (seedCountry r0) (seedCountry r)).
      * rewrite Hne. rewrite (IH (next + 1) k r Hrest Hk). do 2 f_equal. lia.
      * destruct (Nat.eqb (seedCountry r0) (seedCountry r)) eqn:E; symmetry.
        -- apply Nat.eqb_eq in E. apply Z.eqb_eq. lia.
        -- apply Nat.eqb_neq in E. apply Z.eqb_neq. lia.
Qed.

(** X16: after seeding a store that held no countries and no rules, every
    entry of the rule table can be reached the way the verify handler
    reaches it: looking up the code of its country finds that country, and
    looking up its face value under that country's id finds a rule with the
    entry's format, length and description. *)
Theorem seeded_rule_lookup (w : World) (k : nat) (r : DenominationSeed)
    (c : InsertCountry.t) :
  countries (db w) = [] ->
  denominations (db w) = [] ->
  nth_error denominationSeeds k = Some r ->
  nth_error countryData (seedCountry r) = Some c ->
  let w' := snd (seedInitialData w) in
  let cid := countries_id_seq (db w) + Z.of_nat (seedCountry r) in
  fst (getCountryByCode (InsertCountry.code c) w')
  = Return (Some (Country.mk cid (InsertCountry.code c) (InsertCountry.name c)
                    (InsertCountry.currency c) (InsertCountry.currencySymbol c)))
  /\ fst (getDenomination cid (seedValue r) w')
     = Return (Some (Denomination.mk (denominations_id_seq (db w) + Z.of_nat k)
                       cid (seedValue r) (seedDisplayName r)
                       (seedSerialFormat r) (seedSerialLength r)
                       (seedPatternDescription r) true)).
Proof.
  intros Hc Hd Hk Hcountry. simpl.
  rewrite (seedInitialData_closed_form w Hc).
  unfold getCountryByCode, getDenomination, seededStore.
  cbn [fst snd db countries denominations].
  rewrite Hd. cbn [app]. split.
  - now rewrite (find_countriesFrom countryData _ _ c countryData_codes_unique Hcountry).
  - rewrite (find_seeded_rule _ denominationSeeds _ k r); [reflexivity | | exact Hk].
    vm_compute. reflexivity.
Qed.

Lemma seeded_rule_lookup_witness :
  fst (getCountryByCode (js "UK") (snd (seedInitialData freshWorld)))
  = Return (Some (Country.mk (1 + Z.of_nat 1) (js "UK") (js "United Kingdom")
                    (js "GBP") pound))
  /\ fst (getDenomination (1 + Z.of_nat 1) (js "5")
            (snd (seedInitialData freshWorld)))
     = Return (Some (Denomination.mk (1 + Z.of_nat 7) (1 + Z.of_nat 1) (js "5")
                       (pound ++ js "5") (js "^[A-Z]{2}\d{2}\s\d{6}$") 11
                       (js "2 Letters + 2 digits + space + 6 digits") true)).
Proof.
  apply (seeded_rule_lookup freshWorld 7
           (seedRow 1 (js "5") (pound ++ js "5") (js "^[A-Z]{2}\d{2}\s\d{6}$") 11
              (js "2 Letters + 2 digits + space + 6 digits"))
           (countryRow (js "UK") (js "United Kingdom") (js "GBP") pound));
    reflexivity.
Defined.

(** ** The seeded rules: the format fixes the length *)

Lemma matchAt_width (p : RegExp.Pattern) :
  forall i s r,
    RegExp.matchAt p i s = Some r ->
    List.length s = (patternWidth p + List.length r)%nat.
Proof.
  induction p as [|t p IH]; intros i s r H; simpl in H.
  - now injection H as ->.
  - destruct t; simpl.
    + destruct (Nat.eqb i 0); [eauto | discriminate].
    + destruct s; [eauto | discriminate].
    + destruct (RegExp.matchRep a n s) as [s'|] eqn:E; [|discriminate].
      apply matchRep_split in E as (pre & -> & Hlen & _).
      apply IH in H. rewrite length_app, H, Hlen. lia.
Qed.

Lemma ruleConsistentb_sound (src : jsstring) (len : Z) :
  ruleConsistentb src len = true ->
  exists p,
    RegExp.compile src = Some p
    /\ forall s, RegExp.test p s = true -> jslength s = len.
Proof.
  unfold ruleConsistentb.
  destruct (RegExp.compile src) as [p|]; [|discriminate].
  intros H. apply andb_prop in H as [Ha Hw]. apply Z.eqb_eq in Hw.
  exists p. split; [reflexivity|]. intros s Ht.
  rewrite (RegExpFacts.anchored_test_fullMatch p s) in Ht
    by now apply RegExpFacts.anchoredb_sound.
  unfold RegExp.fullMatch in Ht.
  destruct (RegExp.matchAt p 0 s) as [[|? ?]|] eqn:E; try discriminate.
  apply matchAt_width in E. unfold jslength. rewrite E. simpl. lia.
Qed.

Lemma In_denominationsFrom (first : Z) (seeds : list DenominationSeed) :
  forall next d,
    In d (denominationsFrom next (map (seededInsert first) seeds)) ->
    exists r,
      In r seeds
      /\ Denomination.serialFormat d = seedSerialFormat r
      /\ Denomination.serialLength d = seedSerialLength r.
Proof.
  induction seeds as [|r0 rest IH]; intros next d Hin; simpl in Hin.
  - contradiction.
  - destruct Hin as [<-|Hin].
    + exists r0. simpl. auto.
    + destruct (IH _ _ Hin) as (r & Hr & Hf & Hl). exists r. simpl. auto.
Qed.

(** X17: for the rules of the seed the length check never decides: the
    pattern of each seeded rule accepts only serial numbers of exactly its
    [serialLength].  On a store seeded from one without countries and
    rules, every verification answered 200 with [formatValid] true has
    [lengthValid] true, and [isAuthentic] is [formatValid]. *)
Theorem seeded_format_implies_length (w : World) (body : JsValue)
    (r : VerifyResponse.t) (w2 : World) :
  countries (db w) = [] ->
  denominations (db w) = [] ->
  postVerify RegExp.new body (snd (seedInitialData w)) = (Json r, w2) ->
  (VerifyResponse.formatValid r = true -> VerifyResponse.lengthValid r = true)
  /\ VerifyResponse.isAuthentic r = VerifyResponse.formatValid r.
Proof.
  intros Hc Hd E.
  destruct (postVerify_Json_inv RegExp.new body _ r w2 E)
    as (rq & c & d & rx & H).
  destruct (postVerify_checked RegExp.new body _ rq c d rx H)
    as (w1 & E1 & _).
  rewrite E in E1. injection E1 as -> <-.
  destruct H as (_ & _ & Hfind & Hr).
  unfold getDenomination in Hfind. simpl in Hfind. injection Hfind as Hfind.
  apply find_some in Hfind as [Hin _].
  rewrite (seedInitialData_closed_form w Hc) in Hin.
  unfold seededStore in Hin. cbn [snd db denominations] in Hin.
  rewrite Hd in Hin. cbn [app] in Hin.
  apply In_denominationsFrom in Hin as (sr & Hsr & Hf & Hl).
  assert (Hall : forallb (fun s => ruleConsistentb (seedSerialFormat s)
                                     (seedSerialLength s))
                   denominationSeeds = true) by (vm_compute; reflexivity).
  rewrite forallb_forall in Hall. specialize (Hall sr Hsr).
  rewrite <- Hf, <- Hl in Hall.
  apply ruleConsistentb_sound in Hall as (p & Hp & Hlen).
  destruct (new_inv _ _ Hr) as (p' & Hp' & ->).
  rewrite Hp in Hp'. injection Hp' as <-.
  simpl.
  assert (Himp : RegExp.test p (serialNumber rq) = true ->
                 (jslength (serialNumber rq) =? Denomination.serialLength d) = true).
  { intros Ht. apply Z.eqb_eq. now apply Hlen. }
  split; [exact Himp|].
  destruct (RegExp.test p (serialNumber rq)); [|reflexivity].
  now rewrite Himp.
Qed.

Lemma seeded_format_implies_length_witness :
  (VerifyResponse.formatValid goodResponse = true ->
   VerifyResponse.lengthValid goodResponse = true)
  /\ VerifyResponse.isAuthentic goodResponse
     = VerifyResponse.formatValid goodResponse.
Proof.
  apply (seeded_format_implies_length freshWorld goodRequest goodResponse
           (snd (postVerify RegExp.new goodRequest
                   (snd (seedInitialData freshWorld))))).
  - reflexivity.
  - reflexivity.
  - vm_compute. reflexivity.
Defined.

(** ** The seeded rules: no lower-case letters *)

Lemma isLower_listed (c : N) : isLower c = true -> In c lowerLetters.
Proof.
  unfold isLower, RegExp.inRange, lowerLetters. intros H.
  apply andb_prop in H as [Hlo Hhi].
  apply N.leb_le in Hlo, Hhi.
  rewrite <- (N2Nat.id c). apply in_map. apply in_seq. lia.
Qed.

Lemma patternRejectsLower_cons (t : RegExp.Term) (p : RegExp.Pattern) :
  patternRejectsLower (t :: p)
  = match t with
    | RegExp.TRep a _ =>
        forallb (fun c => negb (RegExp.atomMatches a c)) lowerLetters
    | _ => true
    end && patternRejectsLower p.
Proof. reflexivity. Qed.

Lemma matchAt_no_lower (p : RegExp.Pattern) :
  patternRejectsLower p = true ->
  forall i s r,
    RegExp.matchAt p i s = Some r ->
    exists pre, s = pre ++ r /\ Forall (fun c => isLower c = false) pre.
Proof.
  induction p as [|t p IH]; intros Hp i s r H; simpl in H.
  - injection H as ->. exists []. auto.
  - rewrite patternRejectsLower_cons in Hp. apply andb_prop in Hp as [Ht Hp].
    destruct t.
    + destruct (Nat.eqb i 0); [eauto | discriminate].
    + destruct s; [eauto | discriminate].
    + destruct (RegExp.matchRep a n s) as [s'|] eqn:E; [|discriminate].
      apply matchRep_split in E as (pre & -> & _ & Hpre).
      destruct (IH Hp _ _ _ H) as (pre' & -> & Hpre').
      exists (pre ++ pre'). split; [now rewrite app_assoc|].
      apply Forall_app. split; [|exact Hpre'].
      apply Forall_forall. intros c Hc.
      rewrite forallb_forall in Hpre, Ht. specialize (Hpre c Hc).
      destruct (isLower c) eqn:El; [|reflexivity].
      apply isLower_listed in El. specialize (Ht c El).
      rewrite Hpre in Ht. discriminate.
Qed.

Lemma formatRejectsLower_sound (src : jsstring) :
  formatRejectsLower src = true ->
  exists p,
    RegExp.compile src = Some p
    /\ forall s, RegExp.test p s = true -> Forall (fun c => isLower c = false) s.
Proof.
  unfold formatRejectsLower.
  destruct (RegExp.compile src) as [p|]; [|discriminate].
  intros H. apply andb_prop in H as [Ha Hl].
  exists p. split; [reflexivity|]. intros s Ht.
  rewrite (RegExpFacts.anchored_test_fullMatch p s) in Ht
    by now apply RegExpFacts.anchoredb_sound.
  unfold RegExp.fullMatch in Ht.
  destruct (RegExp.matchAt p 0 s) as [[|? ?]|] eqn:E; try discriminate.
  destruct (matchAt_no_lower p Hl _ _ _ E) as (pre & -> & Hpre).
  now rewrite app_nil_r.
Qed.

(** X18: serial numbers are matched as sent, without folding case: on a
    store seeded from one without countries and rules, a verification whose
    serial number contains a lower-case letter [a] to [z] is answered with
    [formatValid] false and [isAuthentic] false, whichever rule it names. *)
Theorem seeded_rules_reject_lower_case (w : World) (body : JsValue)
    (r : VerifyResponse.t) (w2 : World) :
  countries (db w) = [] ->
  denominations (db w) = [] ->
  postVerify RegExp.new body (snd (seedInitialData w)) = (Json r, w2) ->
  Exists (fun c => isLower c = true) (VerifyResponse.serialNumber r) ->
  VerifyResponse.formatValid r = false /\ VerifyResponse.isAuthentic r = false.
Proof.
  intros Hc Hd E Hlow.
  destruct (postVerify_Json_inv RegExp.new body _ r w2 E)
    as (rq & c & d & rx & H).
  destruct (postVerify_checked RegExp.new body _ rq c d rx H)
    as (w1 & E1 & _).
  rewrite E in E1. injection E1 as -> <-.
  destruct H as (_ & _ & Hfind & Hr).
  unfold getDenomination in Hfind. simpl in Hfind. injection Hfind as Hfind.
  apply find_some in Hfind as [Hin _].
  rewrite (seedInitialData_closed_form w Hc) in Hin.
  unfold seededStore in Hin. cbn [snd db denominations] in Hin.
  rewrite Hd in Hin. cbn [app] in Hin.
  apply In_denominationsFrom in Hin as (sr & Hsr & Hf & _).
  assert (Hall : forallb (fun s => formatRejectsLower (seedSerialFormat s))
                   denominationSeeds = true) by (vm_compute; reflexivity).
  rewrite forallb_forall in Hall. specialize (Hall sr Hsr).
  rewrite <- Hf in Hall.
  apply formatRejectsLower_sound in Hall as (p & Hp & Hno).
  destruct (new_inv _ _ Hr) as (p' & Hp' & ->).
  rewrite Hp in Hp'. injection Hp' as <-.
  simpl in *.
  destruct (RegExp.test p (serialNumber rq)) eqn:Ht; [|auto].
  exfalso. specialize (Hno _ Ht).
  apply Exists_exists in Hlow as (x & Hx & Hxl).
  rewrite Forall_forall in Hno. specialize (Hno x Hx). congruence.
Qed.

Lemma seeded_rules_reject_lower_case_witness :
  VerifyResponse.formatValid lowerResponse = false
  /\ VerifyResponse.isAuthentic lowerResponse = false.
Proof.
  apply (seeded_rules_reject_lower_case freshWorld lowerRequest lowerResponse
           (snd (postVerify RegExp.new lowerRequest
                   (snd (seedInitialData freshWorld))))).
  - reflexivity.
  - reflexivity.
  - vm_compute. reflexivity.
  - apply Exists_cons_hd. reflexivity.
Defined.

(** ** [formatValid] on the stores the program builds *)

Lemma serve_keeps_rules (newRegExp : jsstring -> option (jsstring -> bool))
    (requests : list Request) :
  forall w,
    denominations (db (snd (serve (route newRegExp) requests w)))
    = denominations (db w).
Proof.
  induction requests as [|rq rest IH]; intros w; simpl; [reflexivity|].
  destruct (route newRegExp rq w) as [a w1] eqn:E1.
  specialize (IH w1).
  destruct (serve (route newRegExp) rest w1) as [answers w2]. simpl in *.
  rewrite IH. clear IH.
  destruct rq as [|code|body|]; simpl in E1.
  - now injection E1 as <- <-.
  - unfold getDenominationsRoute, getDenominationsBody, bind,
      getCountryByCode in E1. simpl in E1.
    destruct (find _ (countries (db w))); now injection E1 as <- <-.
  - destruct (postVerify_store newRegExp body w)
      as [[_ (rq' & c & d & rx & _ & Hdb)] | [_ Hdb]];
      destruct (postVerify newRegExp body w) as [r w1'];
      injection E1 as <- <-; simpl in Hdb; now rewrite Hdb.
  - now injection E1 as <- <-.
Qed.

(** C2: the only rules a store of the program holds are those of the seed.
    On a store seeded from one without countries and rules, and after
    whatever requests the server has since answered, every verification
    that is answered reports [formatValid] true if and only if the whole
    serial number matches the pattern of the rule it was checked against:
    the pattern opens with [^] and closes with [$], so the engine's search
    can only succeed on the whole string. *)
Theorem formatValid_is_whole_match (w : World) (requests : list Request)
    (body : JsValue) (r : VerifyResponse.t) (w2 : World) :
  countries (db w) = [] ->
  denominations (db w) = [] ->
  postVerify RegExp.new body
    (snd (serve (route RegExp.new) requests (snd (seedInitialData w))))
  = (Json r, w2) ->
  exists rq c d rx p,
    reachesCheck RegExp.new body
      (snd (serve (route RegExp.new) requests (snd (seedInitialData w))))
      rq c d rx
    /\ RegExp.compile (Denomination.serialFormat d) = Some p
    /\ beginsWithCaret (Denomination.serialFormat d)
    /\ endsWithDollar (Denomination.serialFormat d)
    /\ VerifyResponse.serialNumber r = serialNumber rq
    /\ (VerifyResponse.formatValid r = true <->
        RegExp.fullMatch p (serialNumber rq) = true).
Proof.
  intros Hc Hd E.
  destruct (postVerify_Json_inv RegExp.new body _ r w2 E)
    as (rq & c & d & rx & H).
  destruct (postVerify_checked RegExp.new body _ rq c d rx H)
    as (w1 & E1 & _).
  rewrite E in E1. injection E1 as -> <-.
  pose proof H as (_ & _ & Hfind & Hr).
  unfold getDenomination in Hfind. simpl in Hfind. injection Hfind as Hfind.
  apply find_some in Hfind as [Hin _].
  rewrite serve_keeps_rules in Hin.
  rewrite (seedInitialData_closed_form w Hc) in Hin.
  unfold seededStore in Hin. cbn [snd db denominations] in Hin.
  rewrite Hd in Hin. cbn [app] in Hin.
  apply In_denominationsFrom in Hin as (sr & Hsr & Hf & _).
  assert (Hall : forallb formatAnchoredb (map seedSerialFormat denominationSeeds) = true)
    by (vm_compute; reflexivity).
  rewrite forallb_forall in Hall.
  specialize (Hall (seedSerialFormat sr) (in_map _ _ _ Hsr)).
  rewrite <- Hf in Hall.
  apply formatAnchoredb_sound in Hall as (Hb & He & p & Hp & Hfull).
  destruct (new_inv _ _ Hr) as (p' & Hp' & ->).
  rewrite Hp in Hp'. injection Hp' as <-.
  exists rq, c, d, (RegExp.test p), p.
  split; [exact H|]. split; [exact Hp|]. split; [exact Hb|].
  split; [exact He|]. split; [reflexivity|].
  simpl. now rewrite Hfull.
Qed.

Lemma formatValid_is_whole_match_witness :
  exists rq c d rx p,
    reachesCheck RegExp.new goodRequest
      (snd (serve (route RegExp.new) [POST_verify lowerRequest; GET_stats]
              (snd (seedInitialData freshWorld))))
      rq c d rx
    /\ RegExp.compile (Denomination.serialFormat d) = Some p
    /\ beginsWithCaret (Denomination.serialFormat d)
    /\ endsWithDollar (Denomination.serialFormat d)
    /\ VerifyResponse.serialNumber goodResponse = serialNumber rq
    /\ (VerifyResponse.formatValid goodResponse = true <->
        RegExp.fullMatch p (serialNumber rq) = true).
Proof.
  apply (formatValid_is_whole_match freshWorld
           [POST_verify lowerRequest; GET_stats] goodRequest goodResponse
           (snd (postVerify RegExp.new goodRequest
                   (snd (serve (route RegExp.new)
                           [POST_verify lowerRequest; GET_stats]
                           (snd (seedInitialData freshWorld))))))).
  - reflexivity.
  - reflexivity.
  - vm_compute. reflexivity.
Defined.
